(** * LavaAnimeLibServerV2: AnimeManager, LibraryReader and UserManager

    A shallow embedding of [src/class/anime/manager.ts] (the reconciler
    [applyLibraryScraperResult], the staleness scan [updateAllInfo], the
    updater registry [getInfoUpdater] and the [LibraryReader] queries) and of
    [UserManager.changePassword] from [src/class/user/manager.ts].

    The asynchronous methods run sequentially (every store call is awaited),
    so they are embedded in a state-and-exception monad over a [World] that
    holds the Prisma tables and the logger output.  A thrown exception keeps
    the effects performed before it, as in JavaScript. *)

From Stdlib Require Import Ascii ZArith Bool Lia DecimalString String List.
Import ListNotations.

Open Scope string_scope.
Open Scope list_scope.
Open Scope Z_scope.

(** ** Values *)

(** A JavaScript [Date] is its time value, in milliseconds since the epoch.
    (An invalid date is rejected by Prisma before any query runs and is not
    represented.) *)
Definition Date := Z.

(** The Prisma enum [AnimeInfoSource]; its members are strings at run time
    and [getInfoUpdater] compares them with [===] against a string. *)
Definition AnimeInfoSource := string.

(** The exceptions that the embedded methods can see. *)
Inductive JsError : Type :=
| PrismaClientKnownRequestError (code : string)
| TypeError (msg : string)
| UserNotFoundError (msg : string)
| UserPasswordBadError (msg : string)
| OtherError (msg : string).

(** [AnimeSiteLink]: natural key [(siteId, siteType)], nullable [lastUpdate],
    and the ids of the animes it is connected to. *)
Record AnimeSiteLink : Type := mkSiteLink {
  siteId : string;
  siteType : AnimeInfoSource;
  lastUpdate : option Date;
  link_animes : list Z
}.

(** One element of [thisResult.anime.sites]: the fields spread into the
    [siteId_siteType] selector and into [create]. *)
Record SiteLinkInput : Type := mkSiteLinkInput {
  input_siteId : string;
  input_siteType : AnimeInfoSource
}.

(** The scalar columns written by [usePrisma.anime.create]. *)
Record AnimeData : Type := mkAnimeData {
  name : string;
  originalName : string;
  bdrip : bool;
  nsfw : bool;
  platform : string;
  date : option Date;
  releaseYear : option Z;
  releaseSeason : option string;
  region : option string
}.

Record Anime : Type := mkAnime {
  anime_id : Z;
  anime_data : AnimeData
}.

(** [findMany] with [include: { sites: true }]. *)
Record AnimeWithSites : Type := mkAnimeWithSites {
  aws_anime : Anime;
  sites : list AnimeSiteLink
}.

Record LibFile : Type := mkLibFile {
  file_id : Z;
  file_libraryId : Z;
  file_path : string;
  file_name : string;
  file_removed : bool;
  file_animeId : option Z
}.

Record User : Type := mkUser {
  user_id : Z;
  user_email : string;
  user_name : string;
  user_encryption : string;
  user_password : string
}.

(** ** The scrape result consumed by the reconciler *)

Record NewAnimeProposal : Type := mkNewAnimeProposal {
  proposal_data : AnimeData;
  proposal_sites : list SiteLinkInput
}.

Record NewAnimeResult : Type := mkNewAnimeResult {
  new_anime : NewAnimeProposal;
  new_files : list LibFile
}.

Record ExistingAnimeResult : Type := mkExistingAnimeResult {
  existing_anime : Anime;
  existing_files : list LibFile
}.

Record LibraryScrapeResult : Type := mkLibraryScrapeResult {
  newAnime : list NewAnimeResult;
  existingAnime : list ExistingAnimeResult
}.

(** ** The store and the world *)

Record Store : Type := mkStore {
  animes : list Anime;
  siteLinks : list AnimeSiteLink;
  libFiles : list LibFile;
  users : list User;
  nextAnimeId : Z
}.

Inductive LogLevel : Type := LevelInfo | LevelTrace | LevelError.

Record LogEntry : Type := mkLog {
  log_level : LogLevel;
  log_message : string;
  log_error : option JsError
}.

Record World : Type := mkWorld {
  store : Store;
  logs : list LogEntry;
  saltCounter : nat
}.

Definition set_store (w : World) (s : Store) : World :=
  mkWorld s (logs w) (saltCounter w).

Definition set_animes (s : Store) (l : list Anime) (next : Z) : Store :=
  mkStore l (siteLinks s) (libFiles s) (users s) next.

Definition set_siteLinks (s : Store) (l : list AnimeSiteLink) : Store :=
  mkStore (animes s) l (libFiles s) (users s) (nextAnimeId s).

Definition set_libFiles (s : Store) (l : list LibFile) : Store :=
  mkStore (animes s) (siteLinks s) l (users s) (nextAnimeId s).

Definition set_users (s : Store) (l : list User) : Store :=
  mkStore (animes s) (siteLinks s) (libFiles s) l (nextAnimeId s).

(** ** The monad of the asynchronous methods *)

Inductive Result (A : Type) : Type :=
| Ok (a : A)
| Throw (e : JsError).

Arguments Ok {A} a.
Arguments Throw {A} e.

Definition M (A : Type) : Type := World -> Result A * World.

Definition ret {A : Type} (a : A) : M A := fun w => (Ok a, w).

Definition throw {A : Type} (e : JsError) : M A := fun w => (Throw e, w).

Definition bind {A B : Type} (m : M A) (k : A -> M B) : M B :=
  fun w =>
    match m w with
    | (Ok a, w') => k a w'
    | (Throw e, w') => (Throw e, w')
    end.

(** [try { m } catch (error) { h error }]. *)
Definition try_catch {A : Type} (m : M A) (h : JsError -> M A) : M A :=
  fun w =>
    match m w with
    | (Ok a, w') => (Ok a, w')
    | (Throw e, w') => h e w'
    end.

Declare Scope js_scope.
Delimit Scope js_scope with js.
Notation "x <- m ;; k" := (bind m (fun x => k))
  (at level 61, m at next level, right associativity) : js_scope.
Notation "m ;;; k" := (bind m (fun _ => k))
  (at level 61, right associativity) : js_scope.
Open Scope js_scope.

(** [for (const x of l) { await body x }]. *)
Fixpoint for_of {A : Type} (l : list A) (body : A -> M unit) : M unit :=
  match l with
  | [] => ret tt
  | x :: rest => body x ;;; for_of rest body
  end.

(** ** Logger *)

Definition emit (e : LogEntry) : M unit :=
  fun w => (Ok tt, mkWorld (store w) (logs w ++ [e]) (saltCounter w)).

Definition logger_info (msg : string) : M unit :=
  emit (mkLog LevelInfo msg None).

Definition logger_trace (msg : string) : M unit :=
  emit (mkLog LevelTrace msg None).

Definition logger_error (err : JsError) (msg : string) : M unit :=
  emit (mkLog LevelError msg (Some err)).

Definition number_to_string (z : Z) : string :=
  NilZero.string_of_int (Z.to_int z).

(** ** JavaScript and Prisma comparisons on dates *)

(** [ToNumber] of a [Date | null] operand of a relational operator:
    [null] becomes [+0], a date becomes its time value. *)
Definition ToNumber (d : option Date) : Z :=
  match d with
  | Some t => t
  | None => 0
  end.

(** [a <= b] of JavaScript for [a : Date | null] and [b : Date]. *)
Definition js_le (a : option Date) (b : Date) : bool :=
  ToNumber a <=? b.

(** The Prisma filter
    [OR: [{ lastUpdate: { lte: before } }, { lastUpdate: null }]]. *)
Definition where_stale (before : Date) (site : AnimeSiteLink) : bool :=
  match lastUpdate site with
  | Some t => t <=? before
  | None => true
  end.

(** ** Pure table operations *)

Definition key_matches (k : SiteLinkInput) (l : AnimeSiteLink) : bool :=
  String.eqb (siteId l) (input_siteId k) &&
  String.eqb (siteType l) (input_siteType k).

Definition link_key (l : AnimeSiteLink) : string * string :=
  (siteId l, siteType l).

Definition input_key (k : SiteLinkInput) : string * string :=
  (input_siteId k, input_siteType k).

(** The arity of the relation between [Anime] and [AnimeSiteLink].  The
    Prisma schema is not part of the sources: with [OneToMany] a link holds
    one anime (a foreign key), with [ManyToMany] a set of them. *)
Inductive RelationKind : Type := OneToMany | ManyToMany.

Definition mem_id (x : Z) (l : list Z) : bool := existsb (Z.eqb x) l.

(** Prisma's [connect] of an existing link to the anime [animeId]. *)
Definition connect (kind : RelationKind) (animeId : Z) (l : AnimeSiteLink)
  : AnimeSiteLink :=
  match kind with
  | OneToMany => mkSiteLink (siteId l) (siteType l) (lastUpdate l) [animeId]
  | ManyToMany =>
      if mem_id animeId (link_animes l) then l
      else mkSiteLink (siteId l) (siteType l) (lastUpdate l)
             (link_animes l ++ [animeId])
  end.

(** Prisma's nested [connectOrCreate]: a link with the selected key is
    connected to the anime; when there is none, [create] is inserted
    (its [lastUpdate] defaults to null) and connected. *)
Definition connectOrCreate (kind : RelationKind) (animeId : Z)
  (k : SiteLinkInput) (links : list AnimeSiteLink) : list AnimeSiteLink :=
  if existsb (key_matches k) links
  then map (fun l => if key_matches k l then connect kind animeId l else l)
         links
  else links ++ [mkSiteLink (input_siteId k) (input_siteType k) None [animeId]].

Definition sites_of (s : Store) (a : Anime) : list AnimeSiteLink :=
  filter (fun l => mem_id (anime_id a) (link_animes l)) (siteLinks s).

Definition with_sites (s : Store) (a : Anime) : AnimeWithSites :=
  mkAnimeWithSites a (sites_of s a).

(** [findMany({ where: { sites: { some: stale } }, include: { sites } })]. *)
Definition find_stale_animes (before : Date) (s : Store)
  : list AnimeWithSites :=
  map (with_sites s)
    (filter (fun a => existsb (where_stale before) (sites_of s a)) (animes s)).

Definition assign_anime (ids : list Z) (animeId : Z) (f : LibFile) : LibFile :=
  if mem_id (file_id f) ids
  then mkLibFile (file_id f) (file_libraryId f) (file_path f) (file_name f)
         (file_removed f) (Some animeId)
  else f.

Definition count_matching (ids : list Z) (files : list LibFile) : Z :=
  Z.of_nat (List.length (filter (fun f => mem_id (file_id f) ids) files)).

Definition set_password (userId : Z) (enc pw : string) (u : User) : User :=
  if Z.eqb (user_id u) userId
  then mkUser (user_id u) (user_email u) (user_name u) enc pw
  else u.

(** The [where] argument of the [libFile] reads. *)
Inductive PathFilter : Type :=
| PathEquals (p : string)
| PathStartsWith (p : string).

Record LibFileWhere : Type := mkLibFileWhere {
  where_libraryId : Z;
  where_removed : bool;
  where_path : PathFilter;
  where_animeId_null : bool
}.

Definition backslash : Ascii.ascii := Ascii.ascii_of_nat 92.

(** SQL [LIKE]: [%] stands for any text, [_] for any one character, and a
    backslash makes the character after it literal (a pattern that ends in
    a lone backslash matches nothing). *)
Fixpoint like (pattern : string) : string -> bool :=
  match pattern with
  | EmptyString =>
      fun text => match text with EmptyString => true | String _ _ => false end
  | String c rest =>
      if Ascii.eqb c "%"%char then
        fix any (text : string) : bool :=
          like rest text ||
          match text with
          | EmptyString => false
          | String _ text' => any text'
          end
      else if Ascii.eqb c "_"%char then
        fun text =>
          match text with
          | EmptyString => false
          | String _ text' => like rest text'
          end
      else if Ascii.eqb c backslash then
        match rest with
        | EmptyString => fun _ => false
        | String d rest' =>
            fun text =>
              match text with
              | EmptyString => false
              | String t text' => Ascii.eqb t d && like rest' text'
              end
        end
      else
        fun text =>
          match text with
          | EmptyString => false
          | String t text' => Ascii.eqb t c && like rest text'
          end
  end.

(** Prisma's [startsWith] is sent to the database as
    [path LIKE (q || '%')] with [q] as it is: the wildcards and the
    escape character of [q] keep their meaning. *)
Definition path_matches (pf : PathFilter) (p : string) : bool :=
  match pf with
  | PathEquals q => String.eqb p q
  | PathStartsWith q => like (q ++ "%") p
  end.

(** The characters of [p] that [LIKE] reads literally. *)
Definition plain_char (c : Ascii.ascii) : bool :=
  negb (Ascii.eqb c "%"%char) && negb (Ascii.eqb c "_"%char)
  && negb (Ascii.eqb c backslash).

Fixpoint plain (p : string) : bool :=
  match p with
  | EmptyString => true
  | String c rest => plain_char c && plain rest
  end.

Fixpoint has_backslash (p : string) : bool :=
  match p with
  | EmptyString => false
  | String c rest => Ascii.eqb c backslash || has_backslash rest
  end.

(** [agrees p t]: [t] has the length of [p] and its characters are those
    of [p], except where [p] has a wildcard; [p] has no backslash. *)
Fixpoint agrees (p t : string) : bool :=
  match p, t with
  | EmptyString, EmptyString => true
  | String c p', String d t' =>
      (Ascii.eqb d c || Ascii.eqb c "_"%char || Ascii.eqb c "%"%char)
      && negb (Ascii.eqb c backslash) && agrees p' t'
  | _, _ => false
  end.

Definition libFile_matches (c : LibFileWhere) (f : LibFile) : bool :=
  Z.eqb (file_libraryId f) (where_libraryId c) &&
  Bool.eqb (file_removed f) (where_removed c) &&
  path_matches (where_path c) (file_path f) &&
  (if where_animeId_null c
   then match file_animeId f with None => true | Some _ => false end
   else true).

(** [findUnique] on [uniqueFileInLib] together with [removed: false]. *)
Definition libFile_unique_matches (libraryId : Z) (dir base : string)
  (f : LibFile) : bool :=
  Z.eqb (file_libraryId f) libraryId &&
  String.eqb (file_path f) dir &&
  String.eqb (file_name f) base &&
  Bool.eqb (file_removed f) false.

(** The four tables of the store, without the id counter. *)
Definition tables (s : Store)
  : list Anime * list AnimeSiteLink * list LibFile * list User :=
  (animes s, siteLinks s, libFiles s, users s).

(** A row that a unique constraint rejects (P2002) has drawn its id from
    the sequence of the table before the constraint is checked. *)
Definition consumes_id (e : JsError) : bool :=
  match e with
  | PrismaClientKnownRequestError code => String.eqb code "P2002"
  | _ => false
  end.

(** ** Store calls *)

Inductive StoreCall : Type :=
| AnimeCreate (data : AnimeData)
| AnimeUpdateSites (animeId : Z) (site : SiteLinkInput)
| AnimeFindManyStale (before : Date)
| LibFileUpdateMany (ids : list Z) (animeId : Z)
| LibFileFindUnique (libraryId : Z) (dir base : string)
| LibFileFindMany (c : LibFileWhere)
| UserUpdate (userId : Z) (encryption password : string).

(** The interface [AnimeInfoUpdater]: one refresh operation per provider. *)
Record AnimeInfoUpdater : Type := mkUpdater {
  updateRelationAnimes : string -> M unit
}.

(** The result of [path.parse], restricted to the fields that are read. *)
Record ParsedPath : Type := mkParsedPath {
  dir : string;
  base : string
}.

Record Library : Type := mkLibrary { library_id : Z }.
Record LibraryTool : Type := mkLibraryTool { library : Library }.
Record LibraryReader : Type := mkLibraryReader { libraryTool : LibraryTool }.

(** ** Errors and results of UserManager.register and UserManager.login *)

(** The exceptions of [register] and [login].  A Prisma known-request
    error carries its [code] and, when [meta.target] is a string, that
    string. *)
Module Account.

Inductive Error : Type :=
| PrismaClientKnownRequestError (code : string) (target : option string)
| UserEmailBadError (msg : string)
| UserNameBadError (msg : string)
| UserPasswordBadError (msg : string)
| InviteCodeNotFoundError (msg : string)
| UserEmailConflictError (msg : string)
| UserNameConflictError (msg : string)
| UserNotFoundError (msg : string)
| UserPasswordError (msg : string)
| OtherError (msg : string).

Inductive Result (A : Type) : Type :=
| Ok (a : A)
| Throw (e : Error).

Arguments Ok {A} a.
Arguments Throw {A} e.

End Account.

(** The type [LoginSuccessResult]. *)
Record LoginSuccessResult : Type := mkLoginSuccessResult {
  token : string;
  user : User
}.

(** [where: { OR: [{ email: account }, { name: account }] }]. *)
Definition account_matches (account : string) (u : User) : bool :=
  String.eqb (user_email u) account || String.eqb (user_name u) account.

Section Managers.

(** What lies outside the two source files is a parameter of the model:
    the failures of the store (a constraint violation, a lost connection:
    [fault c s] is the exception that call [c] raises in store [s], if
    any), the arity of the anime/link relation, the Bangumi updater,
    the locale rendering of a date, the password validator and encoder,
    and Node's [path/posix]. *)
Variable fault : StoreCall -> Store -> option JsError.
Variable relationKind : RelationKind.
Variable BangumiAnimeInfoUpdater : AnimeInfoUpdater.
Variable toLocaleString : Date -> string.
Variable isSecurePassword : string -> bool.
Variable saltOf : nat -> string.
Variable stringify : string -> string -> string.
Variable nodePath_parse : string -> ParsedPath.
Variable nodePath_join : string -> string.

(** A store call raises the store's fault, if there is one, and has no
    effect then; otherwise it runs on the tables. *)
Definition store_call {A : Type} (c : StoreCall)
  (op : Store -> Result A * Store) : M A :=
  fun w =>
    match fault c (store w) with
    | Some e => (Throw e, w)
    | None => let (r, s') := op (store w) in (r, set_store w s')
    end.

(** [anime.create]: the new row takes the next id of the sequence; a row
    rejected by a unique constraint leaves no row but uses up its id. *)
Definition prisma_anime_create (data : AnimeData) : M Anime :=
  fun w =>
    let s := store w in
    match fault (AnimeCreate data) s with
    | Some e =>
        (Throw e,
         if consumes_id e
         then set_store w (set_animes s (animes s) (nextAnimeId s + 1))
         else w)
    | None =>
        let a := mkAnime (nextAnimeId s) data in
        (Ok a, set_store w (set_animes s (animes s ++ [a]) (nextAnimeId s + 1)))
    end.

(** [anime.update({ where: { id }, data: { sites: { connectOrCreate }}})];
    a missing record is Prisma's P2025. *)
Definition prisma_anime_update_sites (animeId : Z) (site : SiteLinkInput)
  : M unit :=
  store_call (AnimeUpdateSites animeId site) (fun s =>
    if existsb (fun a => anime_id a =? animeId) (animes s)
    then (Ok tt,
          set_siteLinks s
            (connectOrCreate relationKind animeId site (siteLinks s)))
    else (Throw (PrismaClientKnownRequestError "P2025"), s)).

Definition prisma_anime_findMany_stale (before : Date)
  : M (list AnimeWithSites) :=
  store_call (AnimeFindManyStale before) (fun s =>
    (Ok (find_stale_animes before s), s)).

(** [libFile.updateMany({ where: { id: { in: ids } }, data: { animeId }})]. *)
Definition prisma_libFile_updateMany (ids : list Z) (animeId : Z) : M Z :=
  store_call (LibFileUpdateMany ids animeId) (fun s =>
    (Ok (count_matching ids (libFiles s)),
     set_libFiles s (map (assign_anime ids animeId) (libFiles s)))).

Definition prisma_libFile_findUnique (libraryId : Z) (d b : string)
  : M (option LibFile) :=
  store_call (LibFileFindUnique libraryId d b) (fun s =>
    (Ok (find (libFile_unique_matches libraryId d b) (libFiles s)), s)).

(** The query has no [orderBy]: the order of the rows is the choice of
    the store.  The rows are given here in table order and no statement
    below depends on it. *)
Definition prisma_libFile_findMany (c : LibFileWhere) : M (list LibFile) :=
  store_call (LibFileFindMany c) (fun s =>
    (Ok (filter (libFile_matches c) (libFiles s)), s)).

Definition prisma_user_update (userId : Z) (enc pw : string) : M unit :=
  store_call (UserUpdate userId enc pw) (fun s =>
    if existsb (fun u => user_id u =? userId) (users s)
    then (Ok tt, set_users s (map (set_password userId enc pw) (users s)))
    else (Throw (PrismaClientKnownRequestError "P2025"), s)).

(** *** AnimeManager.applyLibraryScraperResult *)

(** Lines 37-52: the loop over [thisResult.anime.sites]. *)
Definition attachSiteLink (animeCreate : Anime) (animeName : string)
  (siteLink : SiteLinkInput) : M unit :=
  prisma_anime_update_sites (anime_id animeCreate) siteLink ;;;
  logger_trace (animeName ++ " -> " ++ input_siteType siteLink ++ " "
                ++ input_siteId siteLink).

(** Lines 34-59: what follows the creation of the anime inside the
    [try]. *)
Definition afterCreate (thisResult : NewAnimeResult) (animeCreate : Anime)
  : M unit :=
  let anime := new_anime thisResult in
  logger_info ("创建新番 " ++ name (proposal_data anime)) ;;;
  for_of (proposal_sites anime)
    (attachSiteLink animeCreate (name (proposal_data anime))) ;;;
  count <- prisma_libFile_updateMany
             (map file_id (new_files thisResult)) (anime_id animeCreate) ;;
  logger_trace (name (proposal_data anime) ++ " 关联到 "
                ++ number_to_string count ++ " 个文件").

(** Lines 21-59: the body of the [try] for one item of [newAnime]. *)
Definition createNewAnime (thisResult : NewAnimeResult) : M unit :=
  animeCreate <- prisma_anime_create
                   (proposal_data (new_anime thisResult)) ;;
  afterCreate thisResult animeCreate.

(** Lines 19-63: one iteration of the first loop. *)
Definition applyNewAnime (thisResult : NewAnimeResult) : M unit :=
  try_catch (createNewAnime thisResult)
    (fun error => logger_error error "创建新番时发生错误").

(** Lines 67-78: one iteration of the second loop. *)
Definition applyExistingAnime (thisResult : ExistingAnimeResult) : M unit :=
  try_catch
    (count <- prisma_libFile_updateMany
                (map file_id (existing_files thisResult))
                (anime_id (existing_anime thisResult)) ;;
     logger_trace (name (anime_data (existing_anime thisResult))
                   ++ " 关联到 " ++ number_to_string count ++ " 个文件"))
    (fun error => logger_error error "链接老番时发生错误").

Definition applyLibraryScraperResult (result : LibraryScrapeResult)
  : M unit :=
  for_of (newAnime result) applyNewAnime ;;;
  for_of (existingAnime result) applyExistingAnime.

(** *** AnimeManager.getInfoUpdater and AnimeManager.updateAllInfo *)

(** Returns nothing ([None]) for every tag other than ["Bangumi"]. *)
Definition getInfoUpdater (tag : AnimeInfoSource)
  : option AnimeInfoUpdater :=
  if String.eqb tag "Bangumi" then Some BangumiAnimeInfoUpdater else None.

(** Lines 104-112: [flatMap] over the query result with the per-site
    [filter] on [site.lastUpdate <= before]. *)
Definition allSitesOutdated (before : Date)
  (animeNeedToUpdate : list AnimeWithSites) : list AnimeSiteLink :=
  flat_map
    (fun anime => filter (fun site => js_le (lastUpdate site) before)
                    (sites anime))
    animeNeedToUpdate.

(** The sites that a scan of store [s] dispatches. *)
Definition dispatch_set (before : Date) (s : Store) : list AnimeSiteLink :=
  allSitesOutdated before (find_stale_animes before s).

(** Lines 115-123: the loop body.  Calling a method on [undefined] is a
    [TypeError]. *)
Definition updateSite (site : AnimeSiteLink) : M unit :=
  let updater := getInfoUpdater (siteType site) in
  logger_info ("正在更新 " ++ siteType site ++ " " ++ siteId site
               ++ " 在库内所有相关作品的信息.") ;;;
  match updater with
  | Some u => updateRelationAnimes u (siteId site)
  | None =>
      throw (TypeError
        "Cannot read properties of undefined (reading 'updateRelationAnimes')")
  end.

Definition updateAllInfo (before : Date) : M unit :=
  animeNeedToUpdate <- prisma_anime_findMany_stale before ;;
  for_of (allSitesOutdated before animeNeedToUpdate) updateSite ;;;
  logger_info ("更新库内所有番剧的第三方站点资料数据完成. ("
               ++ toLocaleString before ++ " 前)").

(** *** LibraryReader *)

Definition reader_libraryId (this : LibraryReader) : Z :=
  library_id (library (libraryTool this)).

Definition getFile (this : LibraryReader) (path : string)
  : M (option LibFile) :=
  let parsePath := nodePath_parse path in
  prisma_libFile_findUnique (reader_libraryId this)
    (dir parsePath) (base parsePath).

Definition getFirstSubFiles (this : LibraryReader) (path : string)
  : M (list LibFile) :=
  let path := nodePath_join path in
  prisma_libFile_findMany
    (mkLibFileWhere (reader_libraryId this) false (PathEquals path) false).

Definition getFirstSubFilesWithNoAnime (this : LibraryReader)
  (path : string) : M (list LibFile) :=
  let path := nodePath_join path in
  prisma_libFile_findMany
    (mkLibFileWhere (reader_libraryId this) false (PathEquals path) true).

Definition getAllSubFiles (this : LibraryReader) (path : string)
  : M (list LibFile) :=
  let path := nodePath_join path in
  prisma_libFile_findMany
    (mkLibFileWhere (reader_libraryId this) false (PathStartsWith path)
       false).

(** *** UserManager.changePassword *)

(** [encryptedPassword.generateNewSalt()]: a fresh salt per call. *)
Definition generateNewSalt : M string :=
  fun w => (Ok (saltOf (saltCounter w)),
            mkWorld (store w) (logs w) (S (saltCounter w))).

Definition changePassword (userId : Z) (newPassword : string) : M unit :=
  if isSecurePassword newPassword
  then
    salt <- generateNewSalt ;;
    let encryptedPassword := stringify salt newPassword in
    try_catch (prisma_user_update userId "Sha256" encryptedPassword)
      (fun error =>
         match error with
         | PrismaClientKnownRequestError code =>
             if String.eqb code "P2025"
             then throw (UserNotFoundError "找不到用户")
             else ret tt
         | _ => ret tt
         end)
  else throw (UserPasswordBadError "密码至少包含字母, 且长度为 7-64").

(** *** Observations of a computation *)

(** [keeps obs m]: running [m] leaves the observation [obs] of the store
    as it was, whether [m] returns or throws. *)
Definition keeps {A B : Type} (obs : Store -> B) (m : M A) : Prop :=
  forall w, obs (store (snd (m w))) = obs (store w).

(** [returns m]: [m] never throws. *)
Definition returns {A : Type} (m : M A) : Prop :=
  forall w, exists a w', m w = (Ok a, w').

(** The anime table together with its id counter. *)
Definition anime_table (s : Store) : list Anime * Z :=
  (animes s, nextAnimeId s).

(** The number of links of a table that carry the key [k]. *)
Definition count_key (k : SiteLinkInput) (links : list AnimeSiteLink)
  : nat :=
  List.length (filter (key_matches k) links).

(** ** Sample stores, faults and updaters used by the examples *)

Definition no_fault : StoreCall -> Store -> option JsError :=
  fun _ _ => None.

(** The name of an anime is unique: creating an anime whose name an anime
    of the store has is a duplicate-key conflict. *)
Definition unique_name : StoreCall -> Store -> option JsError :=
  fun c s =>
    match c with
    | AnimeCreate d =>
        if existsb (fun a => String.eqb (name (anime_data a)) (name d))
             (animes s)
        then Some (PrismaClientKnownRequestError "P2002")
        else None
    | _ => None
    end.

(** Attaching the site [bad] fails. *)
Definition reject_site (bad : string)
  : StoreCall -> Store -> option JsError :=
  fun c _ =>
    match c with
    | AnimeUpdateSites _ k =>
        if String.eqb (input_siteId k) bad
        then Some (OtherError "connection lost")
        else None
    | _ => None
    end.

(** Every user update fails with [e]. *)
Definition reject_user_update (e : JsError)
  : StoreCall -> Store -> option JsError :=
  fun c _ =>
    match c with
    | UserUpdate _ _ _ => Some e
    | _ => None
    end.

Definition stamp (now : Date) (id : string) (l : AnimeSiteLink)
  : AnimeSiteLink :=
  if String.eqb (siteId l) id
  then mkSiteLink (siteId l) (siteType l) (Some now) (link_animes l)
  else l.

(** An updater that sets [lastUpdate] of the links of the given site. *)
Definition stamping_updater (now : Date) : AnimeInfoUpdater :=
  mkUpdater (fun id w =>
    (Ok tt, set_store w
              (set_siteLinks (store w)
                 (map (stamp now id) (siteLinks (store w)))))).

(** The same updater with an outage of the provider for site [down]. *)
Definition flaky_updater (now : Date) (down : string) : AnimeInfoUpdater :=
  mkUpdater (fun id w =>
    if String.eqb id down
    then (Throw (OtherError "fetch failed"), w)
    else updateRelationAnimes (stamping_updater now) id w).

Definition plain_data (n : string) : AnimeData :=
  mkAnimeData n n false false "TV" None None None None.

Definition plain_item (n : string) : NewAnimeResult :=
  mkNewAnimeResult (mkNewAnimeProposal (plain_data n) []) [].

Definition plain_file (i : Z) : LibFile :=
  mkLibFile i 1 "/anime" "ep.mkv" false None.

Definition empty_store : Store := mkStore [] [] [] [] 1.

Definition world_of (s : Store) : World := mkWorld s [] O.

Definition show_date (d : Date) : string := number_to_string d.

Definition file_item (n : string) (site : string) (f : Z) : NewAnimeResult :=
  mkNewAnimeResult
    (mkNewAnimeProposal (plain_data n) [mkSiteLinkInput site "Bangumi"])
    [plain_file f].

(** Ten items; the fifth proposes the name of the first again. *)
Definition ten_items : list NewAnimeResult :=
  map plain_item ["A"; "B"; "C"; "D"] ++ [file_item "A" "500" 10]
  ++ [file_item "F" "600" 11] ++ map plain_item ["G"; "H"; "I"; "J"].

Definition two_file_store : Store :=
  mkStore [] [] [plain_file 10; plain_file 11] [] 1.

(** One anime with two stale Bangumi links. *)
Definition two_bangumi_store : Store :=
  mkStore [mkAnime 1 (plain_data "A")]
    [mkSiteLink "100" "Bangumi" None [1];
     mkSiteLink "200" "Bangumi" (Some 5) [1]]
    [] [] 2.

(** One anime with a stale link of an unregistered provider, followed by
    a stale Bangumi link. *)
Definition unknown_provider_store : Store :=
  mkStore [mkAnime 1 (plain_data "A")]
    [mkSiteLink "7" "Unknown" (Some 5) [1];
     mkSiteLink "200" "Bangumi" (Some 5) [1]]
    [] [] 2.

(** One anime whose only link was never refreshed. *)
Definition never_updated_store : Store :=
  mkStore [mkAnime 1 (plain_data "A")]
    [mkSiteLink "100" "Bangumi" None [1]]
    [] [] 2.

(** Anime 1 owns the link (Bangumi, 100), refreshed at time 5. *)
Definition owned_link_store : Store :=
  mkStore [mkAnime 1 (plain_data "A")]
    [mkSiteLink "100" "Bangumi" (Some 5) [1]]
    [plain_file 10; plain_file 11] [] 2.

(** Two animes and no link yet. *)
Definition two_anime_store : Store :=
  mkStore [mkAnime 1 (plain_data "A"); mkAnime 2 (plain_data "B")]
    [] [] [] 3.

Definition item_with_links : NewAnimeResult :=
  mkNewAnimeResult
    (mkNewAnimeProposal (plain_data "B")
       [mkSiteLinkInput "broken" "Bangumi"; mkSiteLinkInput "300" "Bangumi"])
    [plain_file 10; plain_file 11].

Definition item_sharing_link : NewAnimeResult :=
  mkNewAnimeResult
    (mkNewAnimeProposal (plain_data "B") [mkSiteLinkInput "100" "Bangumi"])
    [].

Definition sample_isSecurePassword (p : string) : bool :=
  (7 <=? String.length p)%nat.

Definition sample_saltOf (n : nat) : string := "salt".

Definition sample_stringify (salt password : string) : string :=
  salt ++ "$" ++ password.

Definition one_user_store : Store :=
  mkStore [] [] [] [mkUser 1 "a@example.org" "a" "Sha256" "salt$old-password"]
    1.

Definition reader_store : Store :=
  mkStore [] []
    [mkLibFile 1 1 "/anime" "a.mkv" false None;
     mkLibFile 2 1 "/anime" "b.mkv" true None;
     mkLibFile 3 2 "/anime" "a.mkv" false None;
     mkLibFile 4 1 "/anime/sub" "c.mkv" false (Some 9)]
    [] 1.

Definition reader_one : LibraryReader :=
  mkLibraryReader (mkLibraryTool (mkLibrary 1)).

(** Stand-ins for [path.parse] and [path.join] on paths that are already
    normal and name a file directly under ["/anime"]. *)
Definition parse_in_anime (p : string) : ParsedPath :=
  mkParsedPath "/anime" (substring 7 (String.length p - 7) p).

Definition join_id (p : string) : string := p.

(** ** Relations between the store before and after a computation *)

(** [relates R m]: the stores before and after [m] are related by [R],
    whether [m] returns or throws. *)
Definition relates {A : Type} (R : Store -> Store -> Prop) (m : M A) : Prop :=
  forall w, R (store w) (store (snd (m w))).

(** The columns of a file that identify it and place it in a library. *)
Definition file_static (f : LibFile) : Z * Z * string * string * bool :=
  (file_id f, file_libraryId f, file_path f, file_name f, file_removed f).

(** No two links carry the same natural key. *)
Definition link_keys_unique (s : Store) : Prop :=
  NoDup (map link_key (siteLinks s)).

(** The key and the freshness stamp of a link. *)
Definition link_stamp (l : AnimeSiteLink) : string * string * option Date :=
  (link_key l, lastUpdate l).

(** [grows s s']: the animes of [s] are the first animes of [s'], and the
    links of [s] are the first links of [s'] with their keys and stamps;
    the links that follow were never refreshed. *)
Definition grows (s s' : Store) : Prop :=
  (exists extra, animes s' = animes s ++ extra) /\
  (exists keys,
     map link_stamp (siteLinks s')
     = map link_stamp (siteLinks s) ++ map (fun k => (k, None)) keys).

(** The link is connected to an anime of the store. *)
Definition connected (s : Store) (site : AnimeSiteLink) : Prop :=
  exists a, In a (animes s) /\ In (anime_id a) (link_animes site).

(** The link with key [k] exists and is connected to the anime [animeId]. *)
Definition attached (animeId : Z) (k : SiteLinkInput)
  (links : list AnimeSiteLink) : Prop :=
  exists l, In l links /\ key_matches k l = true /\
            In animeId (link_animes l).

(** A user without the two columns that [changePassword] writes. *)
Definition user_identity (u : User) : Z * string * string :=
  (user_id u, user_email u, user_name u).

(** A store with a directory whose name extends the name of another. *)
Definition sibling_store : Store :=
  mkStore [] []
    [mkLibFile 1 1 "/anime" "a.mkv" false None;
     mkLibFile 2 1 "/anime2" "b.mkv" false None;
     mkLibFile 3 1 "/music" "c.flac" false None]
    [] 1.

(** ** UserManager.register and UserManager.login *)

(** Further parameters: the validators of [UserValidator], the password
    check of the encoder selected by [user.encryption], the signer
    [useAuth.sign], the failures of [user.findFirst], and the whole of
    [user.create] with its nested [connect] of the invite code (the invite
    table and the clock are outside the sources). *)
Variable isEmail : string -> bool.
Variable isVaildName : string -> bool.
Variable testPassword : string -> string -> string -> bool.
Variable sign : Z -> string.
Variable findFirst_fault : string -> Store -> option Account.Error.
Variable prisma_user_create :
  string -> string -> string -> string -> World -> Account.Result User * World.

(** [findFirst] has no [orderBy]: among the users that match, the store
    returns the one of its choice, here the one at position
    [findFirst_pick account s] (taken modulo their number). *)
Variable findFirst_pick : string -> Store -> nat.

Definition prisma_user_findFirst (account : string) (w : World)
  : Account.Result (option User) * World :=
  match findFirst_fault account (store w) with
  | Some e => (Account.Throw e, w)
  | None =>
      let found := filter (account_matches account) (users (store w)) in
      (Account.Ok
         (nth_error found
            (Nat.modulo (findFirst_pick account (store w))
               (List.length found))), w)
  end.

(** Lines 82-97: the [catch] of [register]. *)
Definition register_catch (error : Account.Error) : Account.Error :=
  match error with
  | Account.PrismaClientKnownRequestError code target =>
      if String.eqb code "P2002"
      then
        match target with
        | Some t =>
            if String.eqb t "User_email_key"
            then Account.UserEmailConflictError "邮箱已被注册"
            else if String.eqb t "User_name_key"
            then Account.UserNameConflictError "用户名已被使用"
            else error
        | None => error
        end
      else if String.eqb code "P2025"
      then Account.InviteCodeNotFoundError "邀请码无效"
      else error
  | _ => error
  end.

Definition register (email name password inviteCode : string) (w : World)
  : Account.Result User * World :=
  if negb (isEmail email)
  then (Account.Throw (Account.UserEmailBadError "邮箱不合法"), w)
  else if negb (isVaildName name)
  then (Account.Throw (Account.UserNameBadError "用户名不能为空或过长"), w)
  else if negb (isSecurePassword password)
  then (Account.Throw
          (Account.UserPasswordBadError "密码至少包含字母, 且长度为 7-64"), w)
  else if String.eqb inviteCode ""
  then (Account.Throw (Account.InviteCodeNotFoundError "邀请码不存在"), w)
  else
    let salt := saltOf (saltCounter w) in
    let w1 := snd (generateNewSalt w) in
    match prisma_user_create email name (stringify salt password) inviteCode w1
    with
    | (Account.Ok create, w2) => (Account.Ok create, w2)
    | (Account.Throw error, w2) => (Account.Throw (register_catch error), w2)
    end.

(** [login]: its [catch] throws the error that it caught. *)
Definition login (account password : string) (w : World)
  : Account.Result LoginSuccessResult * World :=
  match prisma_user_findFirst account w with
  | (Account.Throw error, w1) => (Account.Throw error, w1)
  | (Account.Ok None, w1) =>
      (Account.Throw (Account.UserNotFoundError "无法找到此用户"), w1)
  | (Account.Ok (Some u), w1) =>
      if testPassword (user_encryption u) (user_password u) password
      then (Account.Ok (mkLoginSuccessResult (sign (user_id u)) u), w1)
      else (Account.Throw (Account.UserPasswordError "密码错误"), w1)
  end.

(** Two users: the name of the first is the email of the second. *)
Definition shared_account_store : Store :=
  mkStore [] [] []
    [mkUser 1 "a@example.org" "b@example.org" "Sha256" "salt$first";
     mkUser 2 "b@example.org" "b" "Sha256" "salt$second"]
    1.

Definition sample_testPassword (enc stored password : string) : bool :=
  String.eqb stored ("salt$" ++ password).

Definition sample_sign (id : Z) : string := "token-" ++ number_to_string id.

Definition no_account_fault : string -> Store -> option Account.Error :=
  fun _ _ => None.

(** A store that returns the matching user at position [n]. *)
Definition pick_at (n : nat) : string -> Store -> nat := fun _ _ => n.

(** Library 1 with a directory whose name has a wildcard, one whose name
    has a backslash, and a directory that the wildcard matches. *)
Definition wildcard_store : Store :=
  mkStore [] []
    [mkLibFile 1 1 "/a_b" "a.mkv" false None;
     mkLibFile 2 1 "/axb" "b.mkv" false None;
     mkLibFile 3 1 "/a\b" "c.mkv" false None]
    [] 1.

(** A [user.create] that fails with [e]. *)
Definition failing_user_create (e : Account.Error)
  : string -> string -> string -> string -> World
    -> Account.Result User * World :=
  fun _ _ _ _ w => (Account.Throw e, w).

Definition sample_isEmail (s : string) : bool :=
  match index 0 "@" s with Some _ => true | None => false end.

Definition sample_isVaildName (s : string) : bool :=
  negb (String.eqb s "").

(** Anime 1 is matched again with the file 10. *)
Definition existing_item : ExistingAnimeResult :=
  mkExistingAnimeResult (mkAnime 1 (plain_data "A")) [plain_file 10].

(** A proof depends on the parameters that its statement names. *)
#[local] Set Default Proof Using "Type".

(** ** Laws of the monad and of the loops *)

Lemma bind_ok {A B : Type} (m : M A) (k : A -> M B) w a w' :
  m w = (Ok a, w') -> bind m k w = k a w'.
Proof. intros H. unfold bind. rewrite H. reflexivity. Qed.

Lemma bind_throw {A B : Type} (m : M A) (k : A -> M B) w e w' :
  m w = (Throw e, w') -> bind m k w = (Throw e, w').
Proof. intros H. unfold bind. rewrite H. reflexivity. Qed.

Lemma try_catch_ok {A : Type} (m : M A) h w a w' :
  m w = (Ok a, w') -> try_catch m h w = (Ok a, w').
Proof. intros H. unfold try_catch. rewrite H. reflexivity. Qed.

Lemma try_catch_throw {A : Type} (m : M A) h w e w' :
  m w = (Throw e, w') -> try_catch m h w = h e w'.
Proof. intros H. unfold try_catch. rewrite H. reflexivity. Qed.

Lemma for_of_cons {A : Type} (x : A) rest body w :
  for_of (x :: rest) body w = bind (body x) (fun _ => for_of rest body) w.
Proof. reflexivity. Qed.

(** A loop over [pre ++ x :: post] whose body throws at [x] stops there. *)
Lemma for_of_stops {A : Type} (body : A -> M unit) pre x post w w1 e w2 :
  for_of pre body w = (Ok tt, w1) ->
  body x w1 = (Throw e, w2) ->
  for_of (pre ++ x :: post) body w = (Throw e, w2).
Proof.
  revert w. induction pre as [|y pre IH]; intros w Hpre Hx; simpl in *.
  - inversion Hpre; subst. apply bind_throw. exact Hx.
  - unfold bind in *. destruct (body y w) as [[[]|e'] w'].
    + apply IH; assumption.
    + discriminate.
Qed.

Lemma for_of_app {A : Type} (body : A -> M unit) l1 l2 w w1 :
  for_of l1 body w = (Ok tt, w1) ->
  for_of (l1 ++ l2) body w = for_of l2 body w1.
Proof.
  revert w. induction l1 as [|y l1 IH]; intros w H; simpl in *.
  - inversion H; subst. reflexivity.
  - unfold bind in *. destruct (body y w) as [[[]|e'] w'].
    + apply IH; assumption.
    + discriminate.
Qed.

(** *** Computations that never throw *)

Lemma returns_emit e : returns (emit e).
Proof. intros w. eexists; eexists; reflexivity. Qed.

Lemma returns_for_of {A : Type} (body : A -> M unit) l :
  (forall x, returns (body x)) -> returns (for_of l body).
Proof.
  intros Hb. induction l as [|x l IH]; intros w; simpl.
  - exists tt, w. reflexivity.
  - destruct (Hb x w) as (u & w1 & E1). rewrite (bind_ok _ _ _ _ _ E1).
    apply IH.
Qed.

Lemma returns_catch_log (m : M unit) msg :
  returns (try_catch m (fun error => logger_error error msg)).
Proof.
  intros w. unfold try_catch.
  destruct (m w) as [[a|e] w1].
  - exists a, w1. reflexivity.
  - apply returns_emit.
Qed.

(** *** Computations that keep an observation of the store *)

Section Keeps.
Context {B : Type} (obs : Store -> B).

Lemma keeps_ret {A : Type} (a : A) : keeps obs (ret a).
Proof. intros w. reflexivity. Qed.

Lemma keeps_throw {A : Type} e : keeps obs (@throw A e).
Proof. intros w. reflexivity. Qed.

Lemma keeps_emit e : keeps obs (emit e).
Proof. intros w. reflexivity. Qed.

Lemma keeps_bind {A C : Type} (m : M A) (k : A -> M C) :
  keeps obs m -> (forall a, keeps obs (k a)) -> keeps obs (bind m k).
Proof.
  intros Hm Hk w. unfold bind. specialize (Hm w).
  destruct (m w) as [[a|e] w1]; simpl in *.
  - rewrite Hk. exact Hm.
  - exact Hm.
Qed.

Lemma keeps_try_catch {A : Type} (m : M A) h :
  keeps obs m -> (forall e, keeps obs (h e)) -> keeps obs (try_catch m h).
Proof.
  intros Hm Hh w. unfold try_catch. specialize (Hm w).
  destruct (m w) as [[a|e] w1]; simpl in *.
  - exact Hm.
  - rewrite Hh. exact Hm.
Qed.

Lemma keeps_for_of {A : Type} (body : A -> M unit) l :
  (forall x, keeps obs (body x)) -> keeps obs (for_of l body).
Proof.
  intros Hb. induction l as [|x l IH]; simpl.
  - apply keeps_ret.
  - apply keeps_bind; [apply Hb | intros _; exact IH].
Qed.

(** A store call keeps [obs] when its operation does. *)
Lemma keeps_store_call {A : Type} c (op : Store -> Result A * Store) :
  (forall s, obs (snd (op s)) = obs s) -> keeps obs (store_call c op).
Proof.
  intros Hop w. unfold store_call.
  destruct (fault c (store w)); simpl; [reflexivity|].
  specialize (Hop (store w)). destruct (op (store w)) as [r s'].
  simpl in *. exact Hop.
Qed.

Lemma keeps_findMany_stale before :
  keeps obs (prisma_anime_findMany_stale before).
Proof. apply keeps_store_call. reflexivity. Qed.

Lemma keeps_updateSite site :
  (forall id, keeps obs (updateRelationAnimes BangumiAnimeInfoUpdater id)) ->
  keeps obs (updateSite site).
Proof.
  intros Hu. unfold updateSite. apply keeps_bind; [apply keeps_emit|].
  intros _. unfold getInfoUpdater.
  destruct (String.eqb (siteType site) "Bangumi").
  - apply Hu.
  - apply keeps_throw.
Qed.
End Keeps.

(** ** The staleness scan *)

Lemma in_dispatch_set before s site :
  In site (dispatch_set before s) ->
  js_le (lastUpdate site) before = true /\
  exists a, In a (animes s) /\ In site (sites_of s a).
Proof.
  unfold dispatch_set, allSitesOutdated, find_stale_animes.
  rewrite in_flat_map. intros (aws & Haws & Hin).
  apply filter_In in Hin. destruct Hin as [Hin Hle].
  apply in_map_iff in Haws. destruct Haws as (a & <- & Ha).
  apply filter_In in Ha. split; [exact Hle|].
  exists a. split; [exact (proj1 Ha) | exact Hin].
Qed.

(** The loop of [updateAllInfo] runs over [dispatch_set]. *)
Lemma updateAllInfo_runs_dispatch_set before w :
  fault (AnimeFindManyStale before) (store w) = None ->
  updateAllInfo before w =
  bind (for_of (dispatch_set before (store w)) updateSite)
    (fun _ => logger_info ("更新库内所有番剧的第三方站点资料数据完成. ("
                           ++ toLocaleString before ++ " 前)")) w.
Proof.
  intros Hf. unfold updateAllInfo, prisma_anime_findMany_stale.
  unfold bind at 1. unfold store_call. rewrite Hf. simpl.
  unfold set_store. destruct w; reflexivity.
Qed.

(** The loop body throws a [TypeError] for a tag without an updater. *)
Lemma updateSite_unregistered_throws site w :
  getInfoUpdater (siteType site) = None ->
  fst (updateSite site w)
  = Throw (TypeError
      "Cannot read properties of undefined (reading 'updateRelationAnimes')").
Proof.
  intros H. unfold updateSite. rewrite H. reflexivity.
Qed.

(** C7: a link whose [lastUpdate] is strictly greater than the cutoff is
    never in the dispatch set of a scan, whatever other links its anime
    carries: the filter on [site.lastUpdate <= before] is applied to each
    link of each selected anime. *)
Theorem fresh_link_never_dispatched before s site t :
  lastUpdate site = Some t ->
  before < t ->
  ~ In site (dispatch_set before s).
Proof.
  intros Ht Hlt Hin. apply in_dispatch_set in Hin.
  destruct Hin as [Hle _]. unfold js_le in Hle. rewrite Ht in Hle.
  simpl in Hle. apply Z.leb_le in Hle. lia.
Qed.

(** A link that was never refreshed is dispatched by every scan whose
    cutoff is not before the epoch. *)
Lemma never_updated_dispatched_from_epoch before s a site :
  0 <= before ->
  In a (animes s) ->
  In site (sites_of s a) ->
  lastUpdate site = None ->
  In site (dispatch_set before s).
Proof.
  intros H0 Ha Hs Hn. unfold dispatch_set, allSitesOutdated.
  apply in_flat_map. exists (with_sites s a). split.
  - unfold find_stale_animes. apply in_map. apply filter_In. split; [exact Ha|].
    apply existsb_exists. exists site. split; [exact Hs|].
    unfold where_stale. rewrite Hn. reflexivity.
  - simpl. apply filter_In. split; [exact Hs|].
    unfold js_le. rewrite Hn. simpl. apply Z.leb_le. exact H0.
Qed.

(** C8: the scan itself writes nothing to the store.  Every observation
    of the store (the [lastUpdate] of the links, the anime metadata, the
    files, ...) that the refresh operation of the updater leaves as it
    was is left as it was by the whole scan, whether it completes or
    throws. *)
Theorem updateAllInfo_only_updaters_write {B : Type} (obs : Store -> B) :
  (forall id, keeps obs (updateRelationAnimes BangumiAnimeInfoUpdater id)) ->
  forall before, keeps obs (updateAllInfo before).
Proof.
  intros Hu before. unfold updateAllInfo.
  apply keeps_bind; [apply keeps_findMany_stale|]. intros found.
  apply keeps_bind; [|intros _; apply keeps_emit].
  apply keeps_for_of. intros site. apply keeps_updateSite. exact Hu.
Qed.

(** C3, as the code has it: [updateAllInfo] has no [try]; when the
    refresh operation throws for a stale link, the links before it have
    been dispatched, the exception reaches the caller of the scan and no
    later link is dispatched (the world is the one left by the failing
    refresh). *)
Theorem updateAllInfo_refresh_failure_propagates
  before w pre site post u w1 e w2 :
  fault (AnimeFindManyStale before) (store w) = None ->
  dispatch_set before (store w) = pre ++ site :: post ->
  for_of pre updateSite w = (Ok tt, w1) ->
  getInfoUpdater (siteType site) = Some u ->
  updateRelationAnimes u (siteId site)
    (snd (logger_info ("正在更新 " ++ siteType site ++ " " ++ siteId site
                       ++ " 在库内所有相关作品的信息.") w1))
  = (Throw e, w2) ->
  updateAllInfo before w = (Throw e, w2).
Proof.
  intros Hf Hd Hpre Hu Hthrow.
  rewrite updateAllInfo_runs_dispatch_set by exact Hf.
  apply bind_throw. rewrite Hd.
  apply for_of_stops with (w1 := w1); [exact Hpre|].
  unfold updateSite. rewrite Hu. unfold bind. simpl. exact Hthrow.
Qed.

(** ** The reconciler *)

Lemma try_catch_bind_ok {A C : Type} (m : M A) (k : A -> M C) h w a w1 :
  m w = (Ok a, w1) -> try_catch (bind m k) h w = try_catch (k a) h w1.
Proof. intros H. unfold try_catch, bind. rewrite H. reflexivity. Qed.

Lemma try_catch_bind_throw {A C : Type} (m : M A) (k : A -> M C) h w e w1 :
  m w = (Throw e, w1) -> try_catch (bind m k) h w = h e w1.
Proof. intros H. unfold try_catch, bind. rewrite H. reflexivity. Qed.

Lemma keeps_anime_table_attach a nm k :
  keeps anime_table (attachSiteLink a nm k).
Proof.
  unfold attachSiteLink. apply keeps_bind; [|intros _; apply keeps_emit].
  apply keeps_store_call. intros s.
  destruct (existsb _ (animes s)); reflexivity.
Qed.

Lemma keeps_anime_table_updateMany ids animeId :
  keeps anime_table (prisma_libFile_updateMany ids animeId).
Proof. apply keeps_store_call. reflexivity. Qed.

Lemma createNewAnime_unfold thisResult :
  createNewAnime thisResult =
  bind (prisma_anime_create (proposal_data (new_anime thisResult)))
    (afterCreate thisResult).
Proof. reflexivity. Qed.

Lemma keeps_anime_table_afterCreate thisResult a :
  keeps anime_table (afterCreate thisResult a).
Proof.
  unfold afterCreate. apply keeps_bind; [apply keeps_emit|]. intros _.
  apply keeps_bind.
  - apply keeps_for_of. intros k. apply keeps_anime_table_attach.
  - intros _. apply keeps_bind; [apply keeps_anime_table_updateMany|].
    intros c. apply keeps_emit.
Qed.

Lemma keeps_anime_table_existing thisResult :
  keeps anime_table (applyExistingAnime thisResult).
Proof.
  unfold applyExistingAnime. apply keeps_try_catch.
  - apply keeps_bind; [apply keeps_anime_table_updateMany|].
    intros c. apply keeps_emit.
  - intros e. apply keeps_emit.
Qed.

Lemma returns_applyNewAnime thisResult : returns (applyNewAnime thisResult).
Proof. apply returns_catch_log. Qed.

Lemma returns_applyExistingAnime thisResult :
  returns (applyExistingAnime thisResult).
Proof. apply returns_catch_log. Qed.

Lemma returns_unit (m : M unit) :
  returns m -> forall w, exists w', m w = (Ok tt, w').
Proof.
  intros H w. destruct (H w) as ([] & w' & E). exists w'. exact E.
Qed.

(** C2, as the code has it: the loop over the site links has no [try] of
    its own.  When attaching one link fails, the created anime and the
    links attached before it stay, the remaining links are not attempted
    and the files are not associated (the world is the one left by the
    failing call, plus the error entry of the log); the exception is
    caught at the item boundary and the batch continues with the next
    item. *)
Theorem site_link_failure_ends_item
  thisResult rest w a w1 pre siteLink post w2 e w3 :
  prisma_anime_create (proposal_data (new_anime thisResult)) w
    = (Ok a, w1) ->
  proposal_sites (new_anime thisResult) = pre ++ siteLink :: post ->
  for_of pre (attachSiteLink a (name (proposal_data (new_anime thisResult))))
    (snd (logger_info
            ("创建新番 " ++ name (proposal_data (new_anime thisResult))) w1))
    = (Ok tt, w2) ->
  attachSiteLink a (name (proposal_data (new_anime thisResult))) siteLink w2
    = (Throw e, w3) ->
  applyNewAnime thisResult w
    = (Ok tt, snd (logger_error e "创建新番时发生错误" w3)) /\
  for_of (thisResult :: rest) applyNewAnime w
    = for_of rest applyNewAnime
        (snd (logger_error e "创建新番时发生错误" w3)).
Proof.
  intros Hc Hs Hpre Hfail.
  assert (Hitem : applyNewAnime thisResult w
                  = (Ok tt, snd (logger_error e "创建新番时发生错误" w3))).
  { unfold applyNewAnime. rewrite createNewAnime_unfold.
    rewrite (try_catch_bind_ok _ _ _ _ _ _ Hc).
    rewrite try_catch_throw with (e := e) (w' := w3); [reflexivity|].
    unfold afterCreate.
    rewrite bind_ok with (a := tt)
      (w' := snd (logger_info
               ("创建新番 " ++ name (proposal_data (new_anime thisResult)))
               w1)) by reflexivity.
    apply bind_throw. rewrite Hs.
    apply for_of_stops with (w1 := w2); [exact Hpre | exact Hfail]. }
  split; [exact Hitem|].
  rewrite for_of_cons, (bind_ok _ _ _ _ _ Hitem). reflexivity.
Qed.

(** ** The upsert of a site link *)

Lemma key_matches_connect kind id k l :
  key_matches k (connect kind id l) = key_matches k l.
Proof.
  unfold connect. destruct kind; [reflexivity|].
  destruct (mem_id id (link_animes l)); reflexivity.
Qed.

Lemma lastUpdate_connect kind id l :
  lastUpdate (connect kind id l) = lastUpdate l.
Proof.
  unfold connect. destruct kind; [reflexivity|].
  destruct (mem_id id (link_animes l)); reflexivity.
Qed.

Lemma link_key_connect kind id l :
  link_key (connect kind id l) = link_key l.
Proof.
  unfold connect. destruct kind; [reflexivity|].
  destruct (mem_id id (link_animes l)); reflexivity.
Qed.

Lemma mem_id_In x l : mem_id x l = true <-> In x l.
Proof.
  unfold mem_id. rewrite existsb_exists. split.
  - intros (y & Hy & E). apply Z.eqb_eq in E. subst. exact Hy.
  - intros H. exists x. split; [exact H | apply Z.eqb_refl].
Qed.

Lemma connect_connects kind id l : In id (link_animes (connect kind id l)).
Proof.
  unfold connect. destruct kind; simpl; [left; reflexivity|].
  destruct (mem_id id (link_animes l)) eqn:E.
  - apply mem_id_In. exact E.
  - simpl. apply in_or_app. right. left. reflexivity.
Qed.

Lemma count_key_absent k links :
  existsb (key_matches k) links = false -> count_key k links = O.
Proof.
  unfold count_key. induction links as [|l links IH]; simpl; [reflexivity|].
  intros H. apply orb_false_iff in H. destruct H as [H1 H2].
  rewrite H1. apply IH. exact H2.
Qed.

Lemma count_key_present k links :
  existsb (key_matches k) links = true -> (1 <= count_key k links)%nat.
Proof.
  unfold count_key. induction links as [|l links IH]; simpl; [discriminate|].
  destruct (key_matches k l); simpl; intros H; [lia | apply IH; exact H].
Qed.

Lemma count_key_reconnect kind id k links :
  count_key k
    (map (fun l => if key_matches k l then connect kind id l else l) links)
  = count_key k links.
Proof.
  unfold count_key. induction links as [|l links IH]; simpl; [reflexivity|].
  destruct (key_matches k l) eqn:E.
  - rewrite key_matches_connect, E. simpl. rewrite IH. reflexivity.
  - rewrite E. exact IH.
Qed.

Lemma count_key_app k l1 l2 :
  count_key k (l1 ++ l2) = (count_key k l1 + count_key k l2)%nat.
Proof. unfold count_key. rewrite filter_app, length_app. reflexivity. Qed.

Lemma key_matches_created id k :
  key_matches k (mkSiteLink (input_siteId k) (input_siteType k) None [id])
  = true.
Proof. unfold key_matches. simpl. rewrite !String.eqb_refl. reflexivity. Qed.

(** After [connectOrCreate] the key is carried by one link, or by as many
    as carried it before. *)
Lemma count_key_connectOrCreate kind id k links :
  count_key k (connectOrCreate kind id k links)
  = Nat.max 1 (count_key k links).
Proof.
  unfold connectOrCreate. destruct (existsb (key_matches k) links) eqn:E.
  - rewrite count_key_reconnect. apply count_key_present in E. lia.
  - rewrite count_key_app, (count_key_absent _ _ E).
    unfold count_key at 1. simpl. rewrite key_matches_created. reflexivity.
Qed.

Lemma existsb_of_count k links :
  (1 <= count_key k links)%nat -> existsb (key_matches k) links = true.
Proof.
  intros H. destruct (existsb (key_matches k) links) eqn:E; [reflexivity|].
  rewrite (count_key_absent _ _ E) in H. lia.
Qed.

Lemma attachSiteLink_ok a nm k w w1 :
  attachSiteLink a nm k w = (Ok tt, w1) ->
  siteLinks (store w1)
  = connectOrCreate relationKind (anime_id a) k (siteLinks (store w)).
Proof.
  unfold attachSiteLink, bind, prisma_anime_update_sites, store_call.
  destruct (fault _ (store w)); [discriminate|].
  destruct (existsb _ (animes (store w))); simpl; [|discriminate].
  intros H. inversion H. reflexivity.
Qed.

Lemma connect_one_to_many id l :
  link_animes (connect OneToMany id l) = [id].
Proof. reflexivity. Qed.

Lemma connect_many_to_many id l x :
  In x (link_animes (connect ManyToMany id l)) <->
  In x (link_animes l) \/ x = id.
Proof.
  unfold connect. destruct (mem_id id (link_animes l)) eqn:E; simpl.
  - apply mem_id_In in E. split; [auto|]. intros [H | ->]; assumption.
  - rewrite in_app_iff. simpl. split.
    + intros [H | [H | []]]; auto.
    + intros [H | ->]; auto.
Qed.

(** C4, as the code has it: the attach step is an upsert on the key
    [(siteId, siteType)].  Attaching the same key twice (the second time
    for the anime [b]) leaves one link with that key; the second attach
    adds no record, keeps the links of other keys and changes neither the
    keys nor [lastUpdate] of any link, but it connects the existing link
    to [b]: with a one-to-many relation the link then belongs to [b]
    alone, with a many-to-many relation [b] is added to its animes. *)
Theorem attachSiteLink_upsert a b nm nm' k w w1 w2 :
  (count_key k (siteLinks (store w)) <= 1)%nat ->
  attachSiteLink a nm k w = (Ok tt, w1) ->
  attachSiteLink b nm' k w1 = (Ok tt, w2) ->
  count_key k (siteLinks (store w1)) = 1%nat /\
  count_key k (siteLinks (store w2)) = 1%nat /\
  List.length (siteLinks (store w2)) = List.length (siteLinks (store w1)) /\
  map link_key (siteLinks (store w2)) = map link_key (siteLinks (store w1)) /\
  map lastUpdate (siteLinks (store w2))
    = map lastUpdate (siteLinks (store w1)) /\
  (forall l, In l (siteLinks (store w2)) -> key_matches k l = true ->
     In (anime_id b) (link_animes l)) /\
  (relationKind = OneToMany ->
   forall l, In l (siteLinks (store w2)) -> key_matches k l = true ->
     link_animes l = [anime_id b]) /\
  (relationKind = ManyToMany ->
   forall l, In l (siteLinks (store w2)) -> key_matches k l = true ->
     exists l1, In l1 (siteLinks (store w1)) /\ key_matches k l1 = true /\
       forall x, In x (link_animes l) <->
                 In x (link_animes l1) \/ x = anime_id b) /\
  (forall l, In l (siteLinks (store w2)) -> key_matches k l = false ->
     In l (siteLinks (store w1))).
Proof.
  intros Hc H1 H2. apply attachSiteLink_ok in H1. apply attachSiteLink_ok in H2.
  assert (C1 : count_key k (siteLinks (store w1)) = 1%nat).
  { rewrite H1, count_key_connectOrCreate. lia. }
  assert (E1 : existsb (key_matches k) (siteLinks (store w1)) = true).
  { apply existsb_of_count. lia. }
  split; [exact C1|]. split.
  { rewrite H2, count_key_connectOrCreate. lia. }
  rewrite H2. unfold connectOrCreate. rewrite E1.
  assert (Hsrc : forall l,
            In l (map (fun l0 => if key_matches k l0
                                 then connect relationKind (anime_id b) l0
                                 else l0) (siteLinks (store w1))) ->
            exists l0, In l0 (siteLinks (store w1)) /\
                       key_matches k l0 = key_matches k l /\
                       l = if key_matches k l0
                           then connect relationKind (anime_id b) l0 else l0).
  { intros l Hin. apply in_map_iff in Hin. destruct Hin as (l0 & <- & Hin).
    exists l0. split; [exact Hin|]. split; [|reflexivity].
    destruct (key_matches k l0) eqn:E0; [|symmetry; exact E0].
    symmetry. rewrite key_matches_connect. exact E0. }
  split; [apply length_map|]. split; [|split; [|split; [|split; [|split]]]].
  - rewrite map_map. apply map_ext. intros l.
    destruct (key_matches k l); [apply link_key_connect | reflexivity].
  - rewrite map_map. apply map_ext. intros l.
    destruct (key_matches k l); [apply lastUpdate_connect | reflexivity].
  - intros l Hin Hk. destruct (Hsrc l Hin) as (l0 & _ & E0 & ->).
    rewrite E0, Hk. apply connect_connects.
  - intros Hkind l Hin Hk. destruct (Hsrc l Hin) as (l0 & _ & E0 & ->).
    rewrite E0, Hk, Hkind. apply connect_one_to_many.
  - intros Hkind l Hin Hk. destruct (Hsrc l Hin) as (l0 & Hin0 & E0 & ->).
    exists l0. rewrite E0, Hk. split; [exact Hin0|]. split; [reflexivity|].
    intros x. rewrite Hkind. apply connect_many_to_many.
  - intros l Hin Hk. destruct (Hsrc l Hin) as (l0 & Hin0 & E0 & ->).
    rewrite E0, Hk. exact Hin0.
Qed.

(** ** UserManager.changePassword *)

(** C9: for a valid new password, when the store update fails,
    [changePassword] returns normally unless the failure is a Prisma
    known-request error with code P2025, which alone reaches the caller,
    as a [UserNotFoundError]. *)
Theorem changePassword_swallows_store_errors userId newPassword w e w' :
  isSecurePassword newPassword = true ->
  prisma_user_update userId "Sha256"
    (stringify (saltOf (saltCounter w)) newPassword)
    (snd (generateNewSalt w)) = (Throw e, w') ->
  (e = PrismaClientKnownRequestError "P2025" ->
   changePassword userId newPassword w
   = (Throw (UserNotFoundError "找不到用户"), w')) /\
  (e <> PrismaClientKnownRequestError "P2025" ->
   changePassword userId newPassword w = (Ok tt, w')).
Proof.
  intros Hv Hu. unfold changePassword. rewrite Hv.
  rewrite bind_ok with (a := saltOf (saltCounter w))
    (w' := snd (generateNewSalt w)) by reflexivity.
  rewrite (try_catch_throw _ _ _ _ _ Hu). split.
  - intros ->. reflexivity.
  - intros Hne. destruct e as [code| | | |]; try reflexivity.
    destruct (String.eqb code "P2025") eqn:E; [|reflexivity].
    apply String.eqb_eq in E. subst. congruence.
Qed.

(** ** LibraryReader *)

Lemma findMany_ok c w l w' :
  prisma_libFile_findMany c w = (Ok l, w') ->
  l = filter (libFile_matches c) (libFiles (store w)).
Proof.
  unfold prisma_libFile_findMany, store_call.
  destruct (fault _ (store w)); [discriminate|]. simpl.
  intros H. inversion H. reflexivity.
Qed.

Lemma findUnique_ok libraryId d b w r w' :
  prisma_libFile_findUnique libraryId d b w = (Ok r, w') ->
  r = find (libFile_unique_matches libraryId d b) (libFiles (store w)).
Proof.
  unfold prisma_libFile_findUnique, store_call.
  destruct (fault _ (store w)); [discriminate|]. simpl.
  intros H. inversion H. reflexivity.
Qed.

Lemma libFile_matches_live libraryId pf an f :
  libFile_matches (mkLibFileWhere libraryId false pf an) f = true ->
  file_removed f = false /\ file_libraryId f = libraryId.
Proof.
  unfold libFile_matches. simpl. intros H.
  apply andb_true_iff in H. destruct H as [H _].
  apply andb_true_iff in H. destruct H as [H _].
  apply andb_true_iff in H. destruct H as [Hl Hr].
  apply Z.eqb_eq in Hl. split; [|exact Hl].
  destruct (file_removed f); [discriminate | reflexivity].
Qed.

Lemma findMany_live libraryId pf an w l w' f :
  prisma_libFile_findMany (mkLibFileWhere libraryId false pf an) w
    = (Ok l, w') ->
  In f l ->
  file_removed f = false /\ file_libraryId f = libraryId /\
  In f (libFiles (store w)).
Proof.
  intros H Hin. apply findMany_ok in H. subst l.
  apply filter_In in Hin. destruct Hin as [Hin Hm].
  apply libFile_matches_live in Hm. destruct Hm as [Hr Hl].
  split; [exact Hr | split; [exact Hl | exact Hin]].
Qed.

(** C10: every record returned by a read of [LibraryReader] is a record
    of the store that is not soft-deleted and belongs to the library of
    the reader. *)
Theorem reader_returns_live_files_of_own_library this path w f :
  (exists w', getFile this path w = (Ok (Some f), w')) \/
  (exists l w',
     In f l /\
     (getFirstSubFiles this path w = (Ok l, w') \/
      getFirstSubFilesWithNoAnime this path w = (Ok l, w') \/
      getAllSubFiles this path w = (Ok l, w'))) ->
  file_removed f = false /\
  file_libraryId f = reader_libraryId this /\
  In f (libFiles (store w)).
Proof.
  intros [(w' & H) | (l & w' & Hin & [H | [H | H]])].
  - unfold getFile in H. apply findUnique_ok in H. symmetry in H.
    apply find_some in H. destruct H as [Hin Hm].
    unfold libFile_unique_matches in Hm.
    apply andb_true_iff in Hm. destruct Hm as [Hm Hr].
    apply andb_true_iff in Hm. destruct Hm as [Hm _].
    apply andb_true_iff in Hm. destruct Hm as [Hl _].
    apply Z.eqb_eq in Hl. split; [|split; assumption].
    destruct (file_removed f); [discriminate | reflexivity].
  - exact (findMany_live _ _ _ _ _ _ _ H Hin).
  - exact (findMany_live _ _ _ _ _ _ _ H Hin).
  - exact (findMany_live _ _ _ _ _ _ _ H Hin).
Qed.

(** ** Relations kept by the loops *)

Section Relates.
Context (R : Store -> Store -> Prop).
Hypothesis R_refl : forall s, R s s.
Hypothesis R_trans : forall s1 s2 s3, R s1 s2 -> R s2 s3 -> R s1 s3.

Lemma relates_ret {A : Type} (a : A) : relates R (ret a).
Proof using R_refl. intros w. apply R_refl. Qed.

Lemma relates_throw {A : Type} e : relates R (@throw A e).
Proof using R_refl. intros w. apply R_refl. Qed.

Lemma relates_emit e : relates R (emit e).
Proof using R_refl. intros w. apply R_refl. Qed.

Lemma relates_bind {A C : Type} (m : M A) (k : A -> M C) :
  relates R m -> (forall a, relates R (k a)) -> relates R (bind m k).
Proof using R_trans.
  intros Hm Hk w. unfold bind. specialize (Hm w).
  destruct (m w) as [[a|e] w1]; simpl in *.
  - apply R_trans with (s2 := store w1); [exact Hm | apply Hk].
  - exact Hm.
Qed.

Lemma relates_try_catch {A : Type} (m : M A) h :
  relates R m -> (forall e, relates R (h e)) -> relates R (try_catch m h).
Proof using R_trans.
  intros Hm Hh w. unfold try_catch. specialize (Hm w).
  destruct (m w) as [[a|e] w1]; simpl in *.
  - exact Hm.
  - apply R_trans with (s2 := store w1); [exact Hm | apply Hh].
Qed.

Lemma relates_for_of {A : Type} (body : A -> M unit) l :
  (forall x, relates R (body x)) -> relates R (for_of l body).
Proof using R_refl R_trans.
  intros Hb. induction l as [|x l IH]; simpl.
  - apply relates_ret.
  - apply relates_bind; [apply Hb | intros _; exact IH].
Qed.

Lemma relates_store_call {A : Type} c (op : Store -> Result A * Store) :
  (forall s, R s (snd (op s))) -> relates R (store_call c op).
Proof using R_refl.
  intros Hop w. unfold store_call.
  destruct (fault c (store w)); simpl; [apply R_refl|].
  specialize (Hop (store w)). destruct (op (store w)) as [r s'].
  simpl in *. exact Hop.
Qed.

(** The reconciler keeps [R] when its three store operations do. *)
Lemma relates_reconciler result :
  (forall data s,
     R s (set_animes s (animes s ++ [mkAnime (nextAnimeId s) data])
            (nextAnimeId s + 1))) ->
  (forall s, R s (set_animes s (animes s) (nextAnimeId s + 1))) ->
  (forall animeId k s,
     existsb (fun a => anime_id a =? animeId) (animes s) = true ->
     R s (set_siteLinks s
            (connectOrCreate relationKind animeId k (siteLinks s)))) ->
  (forall ids animeId s,
     R s (set_libFiles s (map (assign_anime ids animeId) (libFiles s)))) ->
  relates R (applyLibraryScraperResult result).
Proof using R_refl R_trans.
  intros Hcreate Hskip Hattach Hfiles.
  assert (Hmany : forall ids animeId,
             relates R (prisma_libFile_updateMany ids animeId)).
  { intros ids animeId. apply relates_store_call. intros s. apply Hfiles. }
  unfold applyLibraryScraperResult. apply relates_bind.
  - apply relates_for_of. intros item. unfold applyNewAnime.
    apply relates_try_catch; [|intros e; apply relates_emit].
    unfold createNewAnime. apply relates_bind.
    + intros w. unfold prisma_anime_create.
      destruct (fault _ (store w)) as [e|]; simpl.
      * destruct (consumes_id e); simpl; [apply Hskip | apply R_refl].
      * apply Hcreate.
    + intros a. unfold afterCreate.
      apply relates_bind; [apply relates_emit|]. intros _.
      apply relates_bind.
      * apply relates_for_of. intros k. unfold attachSiteLink.
        apply relates_bind; [|intros _; apply relates_emit].
        apply relates_store_call. intros s.
        destruct (existsb _ (animes s)) eqn:E; simpl;
          [apply Hattach; exact E | apply R_refl].
      * intros _. apply relates_bind; [apply Hmany|].
        intros c. apply relates_emit.
  - intros _. apply relates_for_of. intros item. unfold applyExistingAnime.
    apply relates_try_catch; [|intros e; apply relates_emit].
    apply relates_bind; [apply Hmany|]. intros c. apply relates_emit.
Qed.
End Relates.

(** ** More on the staleness scan *)

Lemma js_le_where_stale before site :
  js_le (lastUpdate site) before = true -> where_stale before site = true.
Proof.
  unfold js_le, where_stale. destruct (lastUpdate site); simpl; auto.
Qed.

Lemma in_sites_of s a site :
  In site (sites_of s a) <->
  In site (siteLinks s) /\ In (anime_id a) (link_animes site).
Proof.
  unfold sites_of. rewrite filter_In, mem_id_In. reflexivity.
Qed.

Lemma in_dispatch_set_iff before s site :
  In site (dispatch_set before s) <->
  In site (siteLinks s) /\ connected s site /\
  js_le (lastUpdate site) before = true.
Proof.
  split.
  - intros H. apply in_dispatch_set in H. destruct H as (Hle & a & Ha & Hs).
    apply in_sites_of in Hs. destruct Hs as [Hin Hc].
    split; [exact Hin|]. split; [|exact Hle]. exists a. split; assumption.
  - intros (Hin & (a & Ha & Hc) & Hle).
    assert (Hs : In site (sites_of s a)) by (apply in_sites_of; split; assumption).
    unfold dispatch_set, allSitesOutdated, find_stale_animes.
    apply in_flat_map. exists (with_sites s a). split.
    + apply in_map. apply filter_In. split; [exact Ha|].
      apply existsb_exists. exists site. split; [exact Hs|].
      apply js_le_where_stale. exact Hle.
    + simpl. apply filter_In. split; assumption.
Qed.

(** X1: a link is dispatched by a scan exactly when it is a link of the
    store, connected to an anime of the store, and its [lastUpdate]
    passes the comparison [site.lastUpdate <= before] of the filter.  The
    selection of the animes by the query removes no such link, and a link
    connected to no anime is never dispatched. *)
Theorem dispatch_set_spec before s site :
  In site (dispatch_set before s) <->
  In site (siteLinks s) /\ connected s site /\
  js_le (lastUpdate site) before = true.
Proof. apply in_dispatch_set_iff. Qed.

(** X2: for a cutoff at or after the epoch the filter of the scan and the
    filter of the query agree: the dispatched links are the connected
    links whose [lastUpdate] is null or not after the cutoff. *)
Theorem dispatch_set_from_epoch before s site :
  0 <= before ->
  (In site (dispatch_set before s) <->
   In site (siteLinks s) /\ connected s site /\
   where_stale before site = true).
Proof.
  intros H0. rewrite in_dispatch_set_iff.
  assert (E : js_le (lastUpdate site) before = where_stale before site).
  { unfold js_le, where_stale. destruct (lastUpdate site); simpl; [reflexivity|].
    apply Z.leb_le. exact H0. }
  rewrite E. reflexivity.
Qed.

Lemma returns_for_of_in {A : Type} (body : A -> M unit) l :
  (forall x, In x l -> returns (body x)) -> returns (for_of l body).
Proof.
  induction l as [|x l IH]; intros Hb w; simpl.
  - exists tt, w. reflexivity.
  - destruct (Hb x (or_introl eq_refl) w) as (u & w1 & E1).
    rewrite (bind_ok _ _ _ _ _ E1). apply IH.
    intros y Hy. apply Hb. right. exact Hy.
Qed.

Lemma returns_updateSite_bangumi site :
  siteType site = "Bangumi" ->
  (forall id, returns (updateRelationAnimes BangumiAnimeInfoUpdater id)) ->
  returns (updateSite site).
Proof.
  intros Ht Hu w. unfold updateSite, getInfoUpdater. rewrite Ht. simpl.
  unfold bind. simpl. apply Hu.
Qed.

(** X3: when the query succeeds, every dispatched link carries the tag
    ["Bangumi"] and the Bangumi updater does not throw, the scan returns
    normally and the last entry of its log is the completion message. *)
Theorem updateAllInfo_completes before w :
  fault (AnimeFindManyStale before) (store w) = None ->
  (forall site, In site (dispatch_set before (store w)) ->
     siteType site = "Bangumi") ->
  (forall id, returns (updateRelationAnimes BangumiAnimeInfoUpdater id)) ->
  exists w' older,
    updateAllInfo before w = (Ok tt, w') /\
    logs w' = older ++
      [mkLog LevelInfo
         ("更新库内所有番剧的第三方站点资料数据完成. ("
          ++ toLocaleString before ++ " 前)") None].
Proof.
  intros Hf Htag Hu. rewrite updateAllInfo_runs_dispatch_set by exact Hf.
  destruct (returns_unit _
              (returns_for_of_in updateSite (dispatch_set before (store w))
                 (fun site Hin => returns_updateSite_bangumi site
                                    (Htag site Hin) Hu)) w) as (w1 & E1).
  rewrite (bind_ok _ _ _ _ _ E1).
  eexists. exists (logs w1). split; reflexivity.
Qed.

(** X4: the first dispatched link whose tag is not ["Bangumi"] ends the
    scan with a [TypeError]: the links before it have been refreshed, the
    line announcing the link has been logged, and no later link is
    dispatched. *)
Theorem updateAllInfo_unregistered_tag_throws before w pre site post w1 :
  fault (AnimeFindManyStale before) (store w) = None ->
  dispatch_set before (store w) = pre ++ site :: post ->
  for_of pre updateSite w = (Ok tt, w1) ->
  siteType site <> "Bangumi" ->
  updateAllInfo before w =
  (Throw (TypeError
     "Cannot read properties of undefined (reading 'updateRelationAnimes')"),
   snd (logger_info ("正在更新 " ++ siteType site ++ " " ++ siteId site
                     ++ " 在库内所有相关作品的信息.") w1)).
Proof.
  intros Hf Hd Hpre Htag.
  rewrite updateAllInfo_runs_dispatch_set by exact Hf.
  apply bind_throw. rewrite Hd.
  apply for_of_stops with (w1 := w1); [exact Hpre|].
  unfold updateSite, getInfoUpdater.
  destruct (String.eqb (siteType site) "Bangumi") eqn:E.
  - apply String.eqb_eq in E. contradiction.
  - reflexivity.
Qed.

(** ** Invariants of the reconciler *)

Lemma file_static_assign ids animeId f :
  file_static (assign_anime ids animeId f) = file_static f.
Proof.
  unfold assign_anime. destruct (mem_id (file_id f) ids); reflexivity.
Qed.

(** X5: the reconciler never creates or deletes a file record and never
    touches the users: whatever the batch and whatever fails, the users
    are as before and the files are the same records in the same order,
    up to their anime association. *)
Theorem reconciler_only_reassigns_files result w :
  users (store (snd (applyLibraryScraperResult result w))) = users (store w) /\
  map file_static (libFiles (store (snd (applyLibraryScraperResult result w))))
  = map file_static (libFiles (store w)).
Proof.
  assert (H : relates
                (fun s s' => users s' = users s /\
                             map file_static (libFiles s')
                             = map file_static (libFiles s))
                (applyLibraryScraperResult result)).
  { apply relates_reconciler.
    - intros s. split; reflexivity.
    - intros s1 s2 s3 [U1 F1] [U2 F2]. split; congruence.
    - intros data s. split; reflexivity.
    - intros s. split; reflexivity.
    - intros animeId k s _. split; reflexivity.
    - intros ids animeId s. split; [reflexivity|]. simpl.
      rewrite map_map. apply map_ext. intros f. apply file_static_assign. }
  exact (H w).
Qed.

Lemma key_matches_iff k l :
  key_matches k l = true <-> link_key l = input_key k.
Proof.
  unfold key_matches, link_key, input_key.
  rewrite andb_true_iff, !String.eqb_eq. split.
  - intros [-> ->]. reflexivity.
  - intros H. inversion H. split; reflexivity.
Qed.

Lemma link_stamp_connect kind id l :
  link_stamp (connect kind id l) = link_stamp l.
Proof.
  unfold link_stamp. rewrite link_key_connect, lastUpdate_connect. reflexivity.
Qed.

(** The keys and stamps of the table after [connectOrCreate]. *)
Lemma link_stamps_connectOrCreate kind id k links :
  map link_stamp (connectOrCreate kind id k links)
  = map link_stamp links
    ++ (if existsb (key_matches k) links then []
        else [(input_key k, None)]).
Proof.
  unfold connectOrCreate. destruct (existsb (key_matches k) links).
  - rewrite app_nil_r, map_map. apply map_ext. intros l.
    destruct (key_matches k l); [apply link_stamp_connect | reflexivity].
  - rewrite map_app. reflexivity.
Qed.

Lemma link_keys_of_stamps links :
  map link_key links = map fst (map link_stamp links).
Proof. rewrite map_map. reflexivity. Qed.

Lemma connectOrCreate_keys_unique kind id k links :
  NoDup (map link_key links) ->
  NoDup (map link_key (connectOrCreate kind id k links)).
Proof.
  intros Hnd. rewrite link_keys_of_stamps, link_stamps_connectOrCreate.
  rewrite map_app, <- link_keys_of_stamps.
  destruct (existsb (key_matches k) links) eqn:E; simpl.
  - rewrite app_nil_r. exact Hnd.
  - apply NoDup_app.
    + exact Hnd.
    + constructor; [intros [] | constructor].
    + intros x Hx [<- | []]. apply in_map_iff in Hx.
      destruct Hx as (l & Heq & Hin). apply key_matches_iff in Heq.
      assert (Ht : existsb (key_matches k) links = true).
      { apply existsb_exists. exists l. split; assumption. }
      congruence.
Qed.

(** X7: the reconciler keeps the natural key [(siteId, siteType)] of the
    links unique, whatever the batch (a key proposed twice, or already in
    the store) and whatever fails. *)
Theorem reconciler_keeps_link_keys_unique result w :
  link_keys_unique (store w) ->
  link_keys_unique (store (snd (applyLibraryScraperResult result w))).
Proof.
  assert (H : relates (fun s s' => link_keys_unique s -> link_keys_unique s')
                (applyLibraryScraperResult result)).
  { apply relates_reconciler.
    - intros s Hs. exact Hs.
    - intros s1 s2 s3 H12 H23 H1. apply H23, H12, H1.
    - intros data s Hs. exact Hs.
    - intros s Hs. exact Hs.
    - intros animeId k s _ Hs. apply connectOrCreate_keys_unique. exact Hs.
    - intros ids animeId s Hs. exact Hs. }
  exact (H w).
Qed.

Lemma grows_refl s : grows s s.
Proof.
  split; [exists []|exists []]; simpl; rewrite app_nil_r; reflexivity.
Qed.

Lemma grows_trans s1 s2 s3 : grows s1 s2 -> grows s2 s3 -> grows s1 s3.
Proof.
  intros [(e1 & A1) (k1 & L1)] [(e2 & A2) (k2 & L2)]. split.
  - exists (e1 ++ e2). rewrite A2, A1, app_assoc. reflexivity.
  - exists (k1 ++ k2). rewrite L2, L1, map_app, app_assoc. reflexivity.
Qed.

(** X8: the reconciler only adds to the anime and link tables.  The animes
    of the store are kept, in place, and so are its links with their keys
    and their [lastUpdate]; every link that the reconciler adds has a null
    [lastUpdate]. *)
Theorem reconciler_grows_tables result w :
  grows (store w) (store (snd (applyLibraryScraperResult result w))).
Proof.
  assert (H : relates grows (applyLibraryScraperResult result)).
  { apply relates_reconciler.
    - apply grows_refl.
    - apply grows_trans.
    - intros data s. split.
      + eexists. reflexivity.
      + exists []. simpl. rewrite app_nil_r. reflexivity.
    - intros s. split; [exists [] | exists []]; simpl; rewrite app_nil_r;
        reflexivity.
    - intros animeId k s _. split.
      + exists []. simpl. rewrite app_nil_r. reflexivity.
      + simpl. rewrite link_stamps_connectOrCreate.
        destruct (existsb (key_matches k) (siteLinks s)).
        * exists []. reflexivity.
        * exists [input_key k]. reflexivity.
    - intros ids animeId s. split.
      + exists []. simpl. rewrite app_nil_r. reflexivity.
      + exists []. simpl. rewrite app_nil_r. reflexivity. }
  exact (H w).
Qed.

(** ** The reconciler when the store raises no error *)

Lemma attached_connectOrCreate kind id k links :
  attached id k (connectOrCreate kind id k links).
Proof.
  unfold connectOrCreate, attached.
  destruct (existsb (key_matches k) links) eqn:E.
  - apply existsb_exists in E. destruct E as (l & Hin & Hk).
    exists (connect kind id l). split; [|split].
    + apply in_map_iff. exists l. rewrite Hk. split; [reflexivity | exact Hin].
    + rewrite key_matches_connect. exact Hk.
    + apply connect_connects.
  - exists (mkSiteLink (input_siteId k) (input_siteType k) None [id]).
    split; [|split].
    + apply in_or_app. right. left. reflexivity.
    + apply key_matches_created.
    + left. reflexivity.
Qed.

(** A link attached to an anime stays attached when the same anime
    attaches another key. *)
Lemma attached_kept kind id k k' links :
  attached id k links -> attached id k (connectOrCreate kind id k' links).
Proof.
  intros (l & Hin & Hk & Hid). unfold connectOrCreate, attached.
  destruct (existsb (key_matches k') links).
  - exists (if key_matches k' l then connect kind id l else l).
    split; [|split].
    + apply in_map_iff. exists l. split; [reflexivity | exact Hin].
    + destruct (key_matches k' l); [rewrite key_matches_connect|]; exact Hk.
    + destruct (key_matches k' l); [apply connect_connects | exact Hid].
  - exists l. split; [|split; assumption].
    apply in_or_app. left. exact Hin.
Qed.

Lemma existsb_anime_id a l :
  In a l -> existsb (fun x => anime_id x =? anime_id a) l = true.
Proof.
  intros H. apply existsb_exists. exists a. split; [exact H | apply Z.eqb_refl].
Qed.

Lemma attachSiteLink_without_failure a nm k w :
  (forall c s, fault c s = None) ->
  In a (animes (store w)) ->
  exists w',
    attachSiteLink a nm k w = (Ok tt, w') /\
    store w' = set_siteLinks (store w)
                 (connectOrCreate relationKind (anime_id a) k
                    (siteLinks (store w))).
Proof.
  intros Hf Ha. unfold attachSiteLink, bind, prisma_anime_update_sites,
    store_call. rewrite Hf, (existsb_anime_id _ _ Ha). simpl.
  eexists. split; reflexivity.
Qed.

Lemma attach_all_without_failure a nm sites :
  (forall c s, fault c s = None) ->
  forall w,
    In a (animes (store w)) ->
    exists w',
      for_of sites (attachSiteLink a nm) w = (Ok tt, w') /\
      anime_table (store w') = anime_table (store w) /\
      libFiles (store w') = libFiles (store w) /\
      (forall k, In k sites -> attached (anime_id a) k (siteLinks (store w'))) /\
      (forall k, attached (anime_id a) k (siteLinks (store w)) ->
                 attached (anime_id a) k (siteLinks (store w'))).
Proof.
  intros Hf. induction sites as [|k0 sites IH]; intros w Ha.
  - exists w. simpl. repeat split; try reflexivity; [intros k []|auto].
  - destruct (attachSiteLink_without_failure a nm k0 w Hf Ha) as (w1 & E1 & S1).
    assert (Ha1 : In a (animes (store w1))) by (rewrite S1; exact Ha).
    destruct (IH w1 Ha1) as (w' & E' & T' & F' & Hnew & Hold).
    exists w'. rewrite for_of_cons, (bind_ok _ _ _ _ _ E1).
    split; [exact E'|]. rewrite T', F', S1.
    split; [reflexivity|]. split; [reflexivity|]. split.
    + intros k [<- | Hin].
      * apply Hold. rewrite S1. simpl. apply attached_connectOrCreate.
      * apply Hnew. exact Hin.
    + intros k Hk. apply Hold. rewrite S1. simpl.
      apply attached_kept. exact Hk.
Qed.

(** X9: when no store call fails, one item of [newAnime] is applied in
    full: the anime is created with the next id, every proposed site link
    exists afterwards and is connected to it, and the files of the store
    that the item lists are associated to it while the other files are
    left as they were. *)
Theorem applyNewAnime_without_failure thisResult w :
  (forall c s, fault c s = None) ->
  exists w',
    applyNewAnime thisResult w = (Ok tt, w') /\
    animes (store w')
    = animes (store w)
      ++ [mkAnime (nextAnimeId (store w))
            (proposal_data (new_anime thisResult))] /\
    (forall k, In k (proposal_sites (new_anime thisResult)) ->
       attached (nextAnimeId (store w)) k (siteLinks (store w'))) /\
    libFiles (store w')
    = map (assign_anime (map file_id (new_files thisResult))
             (nextAnimeId (store w)))
        (libFiles (store w)).
Proof.
  intros Hf. unfold applyNewAnime, createNewAnime.
  set (a := mkAnime (nextAnimeId (store w))
              (proposal_data (new_anime thisResult))).
  set (w1 := set_store w (set_animes (store w) (animes (store w) ++ [a])
                            (nextAnimeId (store w) + 1))).
  assert (Ec : prisma_anime_create (proposal_data (new_anime thisResult)) w
               = (Ok a, w1)).
  { unfold prisma_anime_create. rewrite Hf. reflexivity. }
  rewrite (try_catch_bind_ok _ _ _ _ _ _ Ec). unfold afterCreate.
  set (w2 := snd (logger_info
                    ("创建新番 " ++ name (proposal_data (new_anime thisResult)))
                    w1)).
  assert (Ha : In a (animes (store w2))).
  { simpl. apply in_or_app. right. left. reflexivity. }
  destruct (attach_all_without_failure a
              (name (proposal_data (new_anime thisResult)))
              (proposal_sites (new_anime thisResult)) Hf w2 Ha)
    as (w3 & E3 & T3 & F3 & Hnew & _).
  eexists. split.
  - apply try_catch_ok.
    rewrite bind_ok with (a := tt) (w' := w2) by reflexivity.
    rewrite (bind_ok _ _ _ _ _ E3).
    unfold prisma_libFile_updateMany, store_call, bind. rewrite Hf.
    reflexivity.
  - simpl. unfold anime_table in T3. inversion T3 as [[TA TN]].
    rewrite TA, F3. split; [reflexivity|]. split; [|reflexivity].
    exact Hnew.
Qed.


Lemma assign_anime_listed ids animeId f :
  mem_id (file_id f) ids = true ->
  file_animeId (assign_anime ids animeId f) = Some animeId.
Proof. intros H. unfold assign_anime. rewrite H. reflexivity. Qed.

Lemma applyExistingAnime_store thisResult w :
  store (snd (applyExistingAnime thisResult w))
  = match fault (LibFileUpdateMany (map file_id (existing_files thisResult))
                   (anime_id (existing_anime thisResult))) (store w) with
    | Some _ => store w
    | None =>
        set_libFiles (store w)
          (map (assign_anime (map file_id (existing_files thisResult))
                  (anime_id (existing_anime thisResult)))
             (libFiles (store w)))
    end.
Proof.
  unfold applyExistingAnime, try_catch, bind, prisma_libFile_updateMany,
    store_call.
  destruct (fault _ (store w)); reflexivity.
Qed.


(** ** More on UserManager.changePassword *)

Lemma user_identity_set_password userId enc pw u :
  user_identity (set_password userId enc pw u) = user_identity u.
Proof.
  unfold set_password. destruct (user_id u =? userId); reflexivity.
Qed.

Lemma changePassword_unfold userId newPassword w :
  isSecurePassword newPassword = true ->
  changePassword userId newPassword w
  = try_catch
      (prisma_user_update userId "Sha256"
         (stringify (saltOf (saltCounter w)) newPassword))
      (fun error =>
         match error with
         | PrismaClientKnownRequestError code =>
             if String.eqb code "P2025"
             then throw (UserNotFoundError "找不到用户")
             else ret tt
         | _ => ret tt
         end)
      (snd (generateNewSalt w)).
Proof. intros Hv. unfold changePassword. rewrite Hv. reflexivity. Qed.

(** X11: for a valid password, a store call that does not fail and an id
    that a user has, [changePassword] returns normally; afterwards every
    user with that id has the encryption ["Sha256"] and the new encoded
    password, the other users are as before, and no user is added or
    removed. *)
Theorem changePassword_updates_password userId newPassword w :
  isSecurePassword newPassword = true ->
  fault (UserUpdate userId "Sha256"
           (stringify (saltOf (saltCounter w)) newPassword)) (store w)
  = None ->
  (exists u, In u (users (store w)) /\ user_id u = userId) ->
  exists w',
    changePassword userId newPassword w = (Ok tt, w') /\
    map user_identity (users (store w'))
    = map user_identity (users (store w)) /\
    (forall u, In u (users (store w')) -> user_id u = userId ->
       user_encryption u = "Sha256" /\
       user_password u = stringify (saltOf (saltCounter w)) newPassword) /\
    (forall u, In u (users (store w)) -> user_id u <> userId ->
       In u (users (store w'))).
Proof.
  intros Hv Hf (u0 & Hin0 & Hid0).
  rewrite (changePassword_unfold _ _ _ Hv).
  assert (He : existsb (fun u => user_id u =? userId) (users (store w)) = true).
  { apply existsb_exists. exists u0. split; [exact Hin0|].
    apply Z.eqb_eq. exact Hid0. }
  eexists. split.
  - apply try_catch_ok. unfold prisma_user_update, store_call. simpl.
    rewrite Hf, He. reflexivity.
  - simpl. split; [|split].
    + rewrite map_map. apply map_ext. intros u.
      apply user_identity_set_password.
    + intros u Hin Hid. apply in_map_iff in Hin.
      destruct Hin as (u1 & <- & _). unfold set_password in *.
      destruct (user_id u1 =? userId) eqn:E; simpl in *.
      * split; reflexivity.
      * apply Z.eqb_neq in E. contradiction.
    + intros u Hin Hne. apply in_map_iff. exists u. split; [|exact Hin].
      unfold set_password. apply Z.eqb_neq in Hne. rewrite Hne. reflexivity.
Qed.

(** X12: [changePassword] writes nothing but the password columns.
    Whatever the arguments and whatever the store does, the animes, links
    and files are as before and so are the id, email and name of every
    user; a password that the validator rejects ends the call with
    [UserPasswordBadError] before a salt is drawn or the store is
    reached. *)
Theorem changePassword_frame userId newPassword w :
  (animes (store (snd (changePassword userId newPassword w))),
   siteLinks (store (snd (changePassword userId newPassword w))),
   libFiles (store (snd (changePassword userId newPassword w))))
  = (animes (store w), siteLinks (store w), libFiles (store w)) /\
  map user_identity (users (store (snd (changePassword userId newPassword w))))
  = map user_identity (users (store w)) /\
  (isSecurePassword newPassword = false ->
   changePassword userId newPassword w
   = (Throw (UserPasswordBadError "密码至少包含字母, 且长度为 7-64"), w)).
Proof.
  destruct (isSecurePassword newPassword) eqn:Hv.
  - rewrite (changePassword_unfold _ _ _ Hv).
    unfold try_catch, prisma_user_update, store_call. simpl.
    destruct (fault _ (store w)) as [e|].
    + repeat split; try discriminate;
        destruct e as [code| | | |]; try reflexivity;
        destruct (String.eqb code "P2025"); reflexivity.
    + destruct (existsb _ (users (store w))); simpl.
      * repeat split; try discriminate.
        rewrite map_map. apply map_ext. intros u.
        apply user_identity_set_password.
      * repeat split; discriminate.
  - unfold changePassword. rewrite Hv. repeat split.
Qed.

(** X13: for a valid password and a store call that does not fail, an id
    that no user has ends [changePassword] with [UserNotFoundError] and
    leaves the store as it was. *)
Theorem changePassword_missing_user userId newPassword w :
  isSecurePassword newPassword = true ->
  fault (UserUpdate userId "Sha256"
           (stringify (saltOf (saltCounter w)) newPassword)) (store w)
  = None ->
  (forall u, In u (users (store w)) -> user_id u <> userId) ->
  fst (changePassword userId newPassword w)
  = Throw (UserNotFoundError "找不到用户") /\
  store (snd (changePassword userId newPassword w)) = store w.
Proof.
  intros Hv Hf Hnone. rewrite (changePassword_unfold _ _ _ Hv).
  assert (He : existsb (fun u => user_id u =? userId) (users (store w))
               = false).
  { destruct (existsb _ (users (store w))) eqn:E; [|reflexivity].
    apply existsb_exists in E. destruct E as (u & Hin & Hid).
    apply Z.eqb_eq in Hid. exfalso. exact (Hnone u Hin Hid). }
  unfold try_catch, prisma_user_update, store_call. simpl.
  rewrite Hf, He. simpl. split; reflexivity.
Qed.

(** ** More on LibraryReader *)

Lemma like_percent rest text :
  like (String "%" rest) text
  = like rest text ||
    match text with
    | EmptyString => false
    | String _ text' => like (String "%" rest) text'
    end.
Proof. destruct text; reflexivity. Qed.

(** A character of a pattern that is no wildcard and no backslash matches
    itself alone. *)
Lemma like_plain_char c rest text :
  plain_char c = true ->
  like (String c rest) text
  = match text with
    | EmptyString => false
    | String t text' => Ascii.eqb t c && like rest text'
    end.
Proof.
  unfold plain_char. intros H.
  apply andb_true_iff in H. destruct H as [H Hb].
  apply andb_true_iff in H. destruct H as [Hp Hu].
  apply negb_true_iff in Hp, Hu, Hb.
  simpl. rewrite Hp, Hu, Hb. reflexivity.
Qed.

Lemma like_underscore rest text :
  like (String "_" rest) text
  = match text with
    | EmptyString => false
    | String _ text' => like rest text'
    end.
Proof. reflexivity. Qed.

Lemma like_any text : like "%" text = true.
Proof.
  induction text as [|c text IH].
  - reflexivity.
  - rewrite like_percent, IH. apply orb_true_r.
Qed.

(** A pattern without backslash, followed by [%], matches every text that
    starts with a text agreeing with it. *)
Lemma like_agrees p : forall t s,
  agrees p t = true -> like (p ++ "%") (t ++ s) = true.
Proof.
  induction p as [|c p IH]; intros [|d t] s H; simpl in H; try discriminate.
  - apply like_any.
  - apply andb_true_iff in H. destruct H as [H Ha].
    apply andb_true_iff in H. destruct H as [Hc Hb].
    specialize (IH t s Ha).
    change ((String c p ++ "%")%string) with (String c (p ++ "%")).
    change ((String d t ++ s)%string) with (String d (t ++ s)).
    destruct (Ascii.eqb c "%") eqn:Ep.
    + apply Ascii.eqb_eq in Ep. subst c.
      rewrite like_percent, like_percent, IH.
      rewrite orb_true_l, orb_true_r. reflexivity.
    + destruct (Ascii.eqb c "_") eqn:Eu.
      * apply Ascii.eqb_eq in Eu. subst c. rewrite like_underscore. exact IH.
      * rewrite !orb_false_r in Hc. rewrite like_plain_char.
        -- rewrite Hc, IH. reflexivity.
        -- unfold plain_char. rewrite Ep, Eu, Hb. reflexivity.
Qed.

Lemma agrees_refl p : has_backslash p = false -> agrees p p = true.
Proof.
  induction p as [|c p IH]; simpl; [reflexivity|]. intros H.
  apply orb_false_iff in H. destruct H as [Hb Hp].
  rewrite Ascii.eqb_refl, Hb, (IH Hp). reflexivity.
Qed.

Lemma append_empty_r s : (s ++ "")%string = s.
Proof. induction s as [|c s IH]; simpl; [reflexivity | rewrite IH; reflexivity]. Qed.

(** For a pattern of literal characters, [LIKE] with a final [%] is the
    prefix test. *)
Lemma like_plain p : forall t,
  plain p = true -> like (p ++ "%") t = String.prefix p t.
Proof.
  induction p as [|c p IH]; intros t H; simpl in H.
  - rewrite like_any. destruct t; reflexivity.
  - apply andb_true_iff in H. destruct H as [Hc Hp].
    change ((String c p ++ "%")%string) with (String c (p ++ "%")).
    rewrite (like_plain_char _ _ _ Hc). destruct t as [|d t]; simpl.
    + reflexivity.
    + rewrite (IH t Hp). destruct (Ascii.ascii_dec c d) as [->|Hne].
      * rewrite Ascii.eqb_refl. reflexivity.
      * destruct (Ascii.eqb d c) eqn:E; [|reflexivity].
        apply Ascii.eqb_eq in E. subst. contradiction.
Qed.

Lemma findMany_world c w l w' :
  prisma_libFile_findMany c w = (Ok l, w') -> w' = w.
Proof.
  unfold prisma_libFile_findMany, store_call.
  destruct (fault _ (store w)); [discriminate|]. simpl.
  intros H. inversion H. destruct w; reflexivity.
Qed.

(** X14: [getFirstSubFiles] returns exactly the files of the store that
    belong to the library of the reader, are not soft-deleted and whose
    directory is the joined path; the call changes nothing. *)
Theorem getFirstSubFiles_spec this path w l w' :
  getFirstSubFiles this path w = (Ok l, w') ->
  w' = w /\
  forall f,
    In f l <->
    In f (libFiles (store w)) /\
    file_libraryId f = reader_libraryId this /\
    file_removed f = false /\
    file_path f = nodePath_join path.
Proof.
  unfold getFirstSubFiles. intros H. split; [exact (findMany_world _ _ _ _ H)|].
  apply findMany_ok in H. subst l. intros f. rewrite filter_In.
  unfold libFile_matches. simpl.
  rewrite andb_true_r, !andb_true_iff, Z.eqb_eq, String.eqb_eq.
  destruct (file_removed f); simpl; split; intros Hh;
    repeat match goal with H : _ /\ _ |- _ => destruct H end;
    try discriminate; repeat split; assumption.
Qed.

(** X15: on the same store and path, the files without anime are among
    the direct sub-files, and every direct sub-file without anime is in
    that first listing; the direct sub-files are among all sub-files when
    the joined path has no backslash (with a backslash the pattern of
    [getAllSubFiles] does not match the path itself). *)
Theorem reader_listings_nest this path w l0 w0 l1 w1 l2 w2 :
  getFirstSubFilesWithNoAnime this path w = (Ok l0, w0) ->
  getFirstSubFiles this path w = (Ok l1, w1) ->
  getAllSubFiles this path w = (Ok l2, w2) ->
  incl l0 l1 /\
  (has_backslash (nodePath_join path) = false -> incl l1 l2) /\
  (forall f, In f l1 -> file_animeId f = None -> In f l0).
Proof.
  unfold getFirstSubFilesWithNoAnime, getFirstSubFiles, getAllSubFiles.
  intros H0 H1 H2. apply findMany_ok in H0, H1, H2. subst l0 l1 l2.
  unfold incl, libFile_matches. cbn [where_libraryId where_removed where_path
    where_animeId_null path_matches]. split; [|split].
  - intros f Hin. apply filter_In in Hin. destruct Hin as [Hin Hm].
    apply filter_In. split; [exact Hin|].
    apply andb_true_iff in Hm. destruct Hm as [Hm _].
    rewrite Hm. reflexivity.
  - intros Hb f Hin. apply filter_In in Hin. destruct Hin as [Hin Hm].
    apply filter_In. split; [exact Hin|].
    rewrite andb_true_r in Hm. apply andb_true_iff in Hm.
    destruct Hm as [Hm Hp]. apply String.eqb_eq in Hp.
    rewrite Hm, Hp. rewrite <- (append_empty_r (nodePath_join path)) at 2.
    rewrite (like_agrees _ _ _ (agrees_refl _ Hb)). reflexivity.
  - intros f Hin Hn. apply filter_In in Hin. destruct Hin as [Hin Hm].
    apply filter_In. split; [exact Hin|]. rewrite Hn.
    rewrite andb_true_r in Hm. rewrite Hm. reflexivity.
Qed.

(** X16: [getAllSubFiles] reads the joined path as a [LIKE] pattern.  For
    a path of literal characters (no [%], [_] or backslash) it returns
    exactly the live files of the library whose directory has the path as
    a string prefix, so also the files of a directory whose name extends
    the path (["/anime2"] for ["/anime"]).  For a path with wildcards it
    returns, besides, the files whose directory differs from the path
    where the path has [_] or [%] (["/axb"] for ["/a_b"]). *)
Theorem getAllSubFiles_matches_like this path w l w' :
  getAllSubFiles this path w = (Ok l, w') ->
  (plain (nodePath_join path) = true ->
   forall f,
     In f l <->
     In f (libFiles (store w)) /\
     file_libraryId f = reader_libraryId this /\
     file_removed f = false /\
     String.prefix (nodePath_join path) (file_path f) = true) /\
  (forall f t suffix,
     In f (libFiles (store w)) ->
     file_libraryId f = reader_libraryId this ->
     file_removed f = false ->
     file_path f = (t ++ suffix)%string ->
     agrees (nodePath_join path) t = true ->
     In f l).
Proof.
  unfold getAllSubFiles. intros H. apply findMany_ok in H. subst l. split.
  - intros Hp f. rewrite filter_In. unfold libFile_matches.
    cbn [where_libraryId where_removed where_path where_animeId_null
         path_matches].
    rewrite (like_plain _ _ Hp), andb_true_r, !andb_true_iff, Z.eqb_eq.
    destruct (file_removed f); simpl; split; intros Hh;
      repeat match goal with H : _ /\ _ |- _ => destruct H end;
      try discriminate; repeat split; assumption.
  - intros f t suffix Hin Hl Hr Hp Ha. apply filter_In. split; [exact Hin|].
    unfold libFile_matches.
    cbn [where_libraryId where_removed where_path where_animeId_null
         path_matches].
    rewrite Hl, Hr, Hp, Z.eqb_refl, (like_agrees _ _ _ Ha). reflexivity.
Qed.

(** X17: [getFile] returns a record exactly when the store holds a live
    file of the library with the directory and base name of the parsed
    path, and the record it returns is such a file; a soft-deleted file
    is reported as absent. *)
Theorem getFile_spec this path w r w' :
  getFile this path w = (Ok r, w') ->
  (forall f, r = Some f ->
     In f (libFiles (store w)) /\
     file_libraryId f = reader_libraryId this /\
     file_path f = dir (nodePath_parse path) /\
     file_name f = base (nodePath_parse path) /\
     file_removed f = false) /\
  (r = None <->
   forall f, In f (libFiles (store w)) ->
     file_libraryId f = reader_libraryId this ->
     file_path f = dir (nodePath_parse path) ->
     file_name f = base (nodePath_parse path) ->
     file_removed f = true).
Proof.
  unfold getFile. intros H. apply findUnique_ok in H. subst r.
  assert (Hspec : forall f,
            libFile_unique_matches (reader_libraryId this)
              (dir (nodePath_parse path)) (base (nodePath_parse path)) f = true
            <-> file_libraryId f = reader_libraryId this /\
                file_path f = dir (nodePath_parse path) /\
                file_name f = base (nodePath_parse path) /\
                file_removed f = false).
  { intros f. unfold libFile_unique_matches.
    rewrite !andb_true_iff, Z.eqb_eq, !String.eqb_eq.
    destruct (file_removed f); simpl; split; intros Hh;
      repeat match goal with H : _ /\ _ |- _ => destruct H end;
      try discriminate; repeat split; assumption. }
  split.
  - intros f Hf. apply find_some in Hf. destruct Hf as [Hin Hm].
    apply Hspec in Hm. split; [exact Hin | exact Hm].
  - split.
    + intros Hn f Hin Hl Hp Hb. pose proof (find_none _ _ Hn f Hin) as Hm.
      destruct (file_removed f) eqn:Hr; [reflexivity|].
      assert (Ht : libFile_unique_matches (reader_libraryId this)
                     (dir (nodePath_parse path)) (base (nodePath_parse path)) f
                   = true).
      { apply Hspec. repeat split; assumption. }
      congruence.
    + intros Hall.
      destruct (find _ (libFiles (store w))) as [f|] eqn:E; [|reflexivity].
      apply find_some in E. destruct E as [Hin Hm]. apply Hspec in Hm.
      destruct Hm as (Hl & Hp & Hb & Hr).
      rewrite (Hall f Hin Hl Hp Hb) in Hr. discriminate.
Qed.

(** ** UserManager.register and UserManager.login *)

(** X19: when the four checks pass and [user.create] fails with [e],
    [register] fails too, in the world that the call left, and the error
    it throws is fixed by [e]: a P2002 whose target is the email key gives
    [UserEmailConflictError], a P2002 whose target is the name key gives
    [UserNameConflictError], a P2025 gives [InviteCodeNotFoundError], and
    every other error (also a P2002 with another target or none) is [e]
    itself. *)
Theorem register_surfaces_store_errors email name password inviteCode w e w2 :
  isEmail email = true ->
  isVaildName name = true ->
  isSecurePassword password = true ->
  inviteCode <> "" ->
  prisma_user_create email name
    (stringify (saltOf (saltCounter w)) password) inviteCode
    (snd (generateNewSalt w)) = (Account.Throw e, w2) ->
  exists e',
    register email name password inviteCode w = (Account.Throw e', w2) /\
    (e = Account.PrismaClientKnownRequestError "P2002" (Some "User_email_key")
     -> e' = Account.UserEmailConflictError "邮箱已被注册") /\
    (e = Account.PrismaClientKnownRequestError "P2002" (Some "User_name_key")
     -> e' = Account.UserNameConflictError "用户名已被使用") /\
    (forall target,
       e = Account.PrismaClientKnownRequestError "P2025" target ->
       e' = Account.InviteCodeNotFoundError "邀请码无效") /\
    (e <> Account.PrismaClientKnownRequestError "P2002" (Some "User_email_key")
     -> e <> Account.PrismaClientKnownRequestError "P2002"
               (Some "User_name_key") ->
     (forall target,
        e <> Account.PrismaClientKnownRequestError "P2025" target) ->
     e' = e).
Proof.
  intros He Hn Hp Hc Hcreate. exists (register_catch e). split.
  - unfold register. rewrite He, Hn, Hp. cbn [negb].
    destruct (String.eqb inviteCode "") eqn:Ec.
    + apply String.eqb_eq in Ec. contradiction.
    + cbv zeta. rewrite Hcreate. reflexivity.
  - split; [intros ->; reflexivity|]. split; [intros ->; reflexivity|].
    split; [intros target ->; reflexivity|].
    intros Hne Hnn Hni.
    destruct e as [code target| | | | | | | | |]; try reflexivity. simpl.
    destruct (String.eqb code "P2002") eqn:E2.
    + apply String.eqb_eq in E2. subst code.
      destruct target as [t|]; [|reflexivity].
      destruct (String.eqb t "User_email_key") eqn:Ee.
      * apply String.eqb_eq in Ee. subst t. contradiction.
      * destruct (String.eqb t "User_name_key") eqn:En; [|reflexivity].
        apply String.eqb_eq in En. subst t. contradiction.
    + destruct (String.eqb code "P2025") eqn:E5; [|reflexivity].
      apply String.eqb_eq in E5. subst code. exfalso.
      exact (Hni target eq_refl).
Qed.

Lemma findFirst_found account w u w' :
  prisma_user_findFirst account w = (Account.Ok (Some u), w') ->
  w' = w /\ In u (users (store w)) /\ account_matches account u = true.
Proof.
  unfold prisma_user_findFirst.
  destruct (findFirst_fault account (store w)); [discriminate|].
  intros H. inversion H as [[Hn Hw]]. subst w'. split; [reflexivity|].
  apply nth_error_In in Hn. apply filter_In in Hn. exact Hn.
Qed.

(** With a matching user in the table the lookup returns a user. *)
Lemma findFirst_some account w v :
  findFirst_fault account (store w) = None ->
  In v (users (store w)) ->
  account_matches account v = true ->
  exists u, prisma_user_findFirst account w = (Account.Ok (Some u), w).
Proof.
  intros Hf Hin Hm. unfold prisma_user_findFirst. rewrite Hf.
  set (found := filter (account_matches account) (users (store w))).
  assert (Hv : In v found) by (apply filter_In; split; assumption).
  destruct (nth_error found
              (Nat.modulo (findFirst_pick account (store w))
                 (List.length found))) as [u|] eqn:E.
  - exists u. reflexivity.
  - exfalso. apply nth_error_None in E.
    assert (Hpos : (List.length found <> 0)%nat).
    { destruct found; [destruct Hv | discriminate]. }
    pose proof (Nat.mod_upper_bound (findFirst_pick account (store w))
                  (List.length found) Hpos). lia.
Qed.

Lemma findFirst_none account w :
  findFirst_fault account (store w) = None ->
  (forall x, In x (users (store w)) -> account_matches account x = false) ->
  prisma_user_findFirst account w = (Account.Ok None, w).
Proof.
  intros Hf Hnone. unfold prisma_user_findFirst. rewrite Hf.
  destruct (nth_error _ _) as [u|] eqn:E; [|reflexivity].
  apply nth_error_In in E. apply filter_In in E. destruct E as [Hin Hm].
  rewrite (Hnone u Hin) in Hm. discriminate.
Qed.

(** X20: a login that succeeds has verified the password.  The user it
    returns is a user of the store whose email or name is the account,
    the password passed the check of that user's encoder, the token is
    signed for that user's id, and the world is as before. *)
Theorem login_success_is_verified account password w r w' :
  login account password w = (Account.Ok r, w') ->
  w' = w /\
  In (user r) (users (store w)) /\
  account_matches account (user r) = true /\
  testPassword (user_encryption (user r)) (user_password (user r)) password
  = true /\
  token r = sign (user_id (user r)).
Proof.
  unfold login.
  destruct (prisma_user_findFirst account w) as [[[u|]|e] w1] eqn:Ef;
    try discriminate.
  apply findFirst_found in Ef. destruct Ef as (-> & Hin & Hm).
  destruct (testPassword (user_encryption u) (user_password u) password) eqn:Et;
    [|discriminate].
  intros H. inversion H. subst. simpl. repeat split; assumption.
Qed.

(** X21: when the lookup does not fail and some user has the account as
    email or name, [login] decides on one such user, the one the store
    returns: the call returns that user with a token for its id when its
    password check passes and ends with [UserPasswordError] when it
    fails; the world is as before.  When one user only has the account,
    that user decides. *)
Theorem login_decides_on_a_match account password w v :
  findFirst_fault account (store w) = None ->
  In v (users (store w)) ->
  account_matches account v = true ->
  exists u,
    In u (users (store w)) /\
    account_matches account u = true /\
    login account password w
    = (if testPassword (user_encryption u) (user_password u) password
       then (Account.Ok (mkLoginSuccessResult (sign (user_id u)) u), w)
       else (Account.Throw (Account.UserPasswordError "密码错误"), w)) /\
    ((forall x, In x (users (store w)) -> account_matches account x = true ->
        x = v) ->
     u = v).
Proof.
  intros Hf Hin Hm.
  destruct (findFirst_some account w v Hf Hin Hm) as (u & Eu).
  destruct (findFirst_found _ _ _ _ Eu) as (_ & Hu & Hmu).
  exists u. split; [exact Hu|]. split; [exact Hmu|]. split.
  - unfold login. rewrite Eu.
    destruct (testPassword _ _ password); reflexivity.
  - intros Huniq. apply Huniq; assumption.
Qed.

(** X22: when the lookup does not fail and no user has the account as
    email or name, [login] ends with [UserNotFoundError]; in particular
    on an empty user table. *)
Theorem login_unknown_account account password w :
  findFirst_fault account (store w) = None ->
  (forall x, In x (users (store w)) -> account_matches account x = false) ->
  login account password w
  = (Account.Throw (Account.UserNotFoundError "无法找到此用户"), w).
Proof.
  intros Hf Hnone. unfold login.
  rewrite (findFirst_none _ _ Hf Hnone). reflexivity.
Qed.

(** ** Isolation of the items of a batch *)

Lemma keeps_libFiles_attach a nm k : keeps libFiles (attachSiteLink a nm k).
Proof.
  unfold attachSiteLink. apply keeps_bind; [|intros _; apply keeps_emit].
  apply keeps_store_call. intros s.
  destruct (existsb _ (animes s)); reflexivity.
Qed.

(** A loop over the site links that returns has attached every link. *)
Lemma attach_all_ok a nm sites :
  forall w w',
    for_of sites (attachSiteLink a nm) w = (Ok tt, w') ->
    anime_table (store w') = anime_table (store w) /\
    libFiles (store w') = libFiles (store w) /\
    (forall k, In k sites -> attached (anime_id a) k (siteLinks (store w'))) /\
    (forall k, attached (anime_id a) k (siteLinks (store w)) ->
               attached (anime_id a) k (siteLinks (store w'))).
Proof.
  induction sites as [|k0 sites IH]; intros w w' H.
  - simpl in H. inversion H. subst w'.
    repeat split; [intros k [] | auto].
  - rewrite for_of_cons in H. unfold bind in H.
    destruct (attachSiteLink a nm k0 w) as [[[]|e] w1] eqn:E1;
      [|discriminate].
    destruct (IH w1 w' H) as (T' & F' & Hnew & Hold).
    pose proof (keeps_anime_table_attach a nm k0 w) as T1.
    pose proof (keeps_libFiles_attach a nm k0 w) as F1.
    rewrite E1 in T1, F1. simpl in T1, F1.
    apply attachSiteLink_ok in E1.
    split; [congruence|]. split; [congruence|]. split.
    + intros k [<- | Hin].
      * apply Hold. rewrite E1. apply attached_connectOrCreate.
      * apply Hnew. exact Hin.
    + intros k Hk. apply Hold. rewrite E1. apply attached_kept. exact Hk.
Qed.

(** An item whose [try] body returns has been applied in full. *)
Lemma createNewAnime_ok thisResult w w2 :
  createNewAnime thisResult w = (Ok tt, w2) ->
  exists a,
    anime_data a = proposal_data (new_anime thisResult) /\
    animes (store w2) = animes (store w) ++ [a] /\
    (forall k, In k (proposal_sites (new_anime thisResult)) ->
       attached (anime_id a) k (siteLinks (store w2))) /\
    libFiles (store w2)
    = map (assign_anime (map file_id (new_files thisResult)) (anime_id a))
        (libFiles (store w)).
Proof.
  unfold createNewAnime, bind at 1, prisma_anime_create.
  destruct (fault _ (store w)) as [e|]; [discriminate|]. cbv zeta.
  set (a := mkAnime (nextAnimeId (store w))
              (proposal_data (new_anime thisResult))).
  unfold afterCreate, bind at 1. simpl logger_info.
  unfold logger_info at 1, emit at 1. cbv beta iota. unfold bind at 1.
  match goal with
  | |- context [for_of ?l ?f ?x] =>
      destruct (for_of l f x) as [[[]|e] w3] eqn:E3
  end; [|discriminate].
  destruct (attach_all_ok _ _ _ _ _ E3) as (T3 & F3 & Hnew & _).
  unfold bind, prisma_libFile_updateMany, store_call.
  destruct (fault _ (store w3)); [discriminate|]. simpl.
  intros H. inversion H. subst w2. simpl.
  unfold anime_table in T3. simpl in T3, F3. inversion T3 as [[TA TN]].
  exists a. rewrite TA, F3. repeat split. exact Hnew.
Qed.

Lemma applyNewAnime_of_ok thisResult w w2 :
  createNewAnime thisResult w = (Ok tt, w2) ->
  applyNewAnime thisResult w = (Ok tt, w2).
Proof. intros H. unfold applyNewAnime. apply try_catch_ok. exact H. Qed.

(** An item whose creation fails changes no table. *)
Lemma applyNewAnime_create_fails thisResult w :
  fault (AnimeCreate (proposal_data (new_anime thisResult))) (store w)
  <> None ->
  tables (store (snd (applyNewAnime thisResult w))) = tables (store w).
Proof.
  intros Hf. unfold applyNewAnime, try_catch, createNewAnime, bind,
    prisma_anime_create.
  destruct (fault _ (store w)) as [e|]; [|contradiction].
  destruct (consumes_id e); reflexivity.
Qed.

(** An item whose creation does not fail adds its anime, whatever its
    later steps do. *)
Lemma applyNewAnime_creates thisResult w :
  fault (AnimeCreate (proposal_data (new_anime thisResult))) (store w)
  = None ->
  exists a,
    anime_data a = proposal_data (new_anime thisResult) /\
    animes (store (snd (applyNewAnime thisResult w)))
    = animes (store w) ++ [a].
Proof.
  intros Hf.
  exists (mkAnime (nextAnimeId (store w))
            (proposal_data (new_anime thisResult))).
  split; [reflexivity|].
  unfold applyNewAnime. rewrite createNewAnime_unfold.
  erewrite try_catch_bind_ok.
  2:{ unfold prisma_anime_create. rewrite Hf. reflexivity. }
  pose proof (keeps_try_catch anime_table _
                (fun error => logger_error error "创建新番时发生错误")
                (keeps_anime_table_afterCreate thisResult
                   (mkAnime (nextAnimeId (store w))
                      (proposal_data (new_anime thisResult))))
                (fun e => keeps_emit anime_table _)) as Hk.
  match goal with
  | |- animes (store (snd (?m ?x))) = _ => specialize (Hk x)
  end.
  exact (f_equal fst Hk).
Qed.

(** The reconciler removes no anime. *)
Lemma reconciler_keeps_animes result w a :
  In a (animes (store w)) ->
  In a (animes (store (snd (applyLibraryScraperResult result w)))).
Proof.
  assert (H : relates (fun s s' => forall x, In x (animes s) ->
                                             In x (animes s'))
                (applyLibraryScraperResult result)).
  { apply relates_reconciler.
    - intros s x Hx. exact Hx.
    - intros s1 s2 s3 H12 H23 x Hx. apply H23, H12, Hx.
    - intros data s x Hx. simpl. apply in_or_app. left. exact Hx.
    - intros s x Hx. exact Hx.
    - intros animeId k s _ x Hx. exact Hx.
    - intros ids animeId s x Hx. exact Hx. }
  exact (H w a).
Qed.

Lemma for_of_split {A : Type} (body : A -> M unit) pre item post w :
  (forall x, returns (body x)) ->
  exists w1 w2,
    for_of pre body w = (Ok tt, w1) /\
    body item w1 = (Ok tt, w2) /\
    for_of (pre ++ item :: post) body w = for_of post body w2.
Proof.
  intros Hr.
  destruct (returns_unit _ (returns_for_of body pre Hr) w) as (w1 & E1).
  destruct (returns_unit _ (Hr item) w1) as (w2 & E2).
  exists w1, w2. split; [exact E1|]. split; [exact E2|].
  rewrite (for_of_app _ _ _ _ _ E1), for_of_cons, (bind_ok _ _ _ _ _ E2).
  reflexivity.
Qed.

(** C6: a failure inside one item is caught at the item boundary and the
    other items are processed.  [applyLibraryScraperResult] returns
    normally for every batch and every behaviour of the store.  Each item
    of [newAnime] is applied in the world that the items before it left,
    whatever failed in them, and the batch goes on with the items after
    it: if its creation fails there, no table changes; if its creation
    does not fail there, its anime is added and is in the store at the
    end; if none of its steps fails, its links are attached and its files
    associated as well.  Each item of [existingAnime] is applied likewise
    and associates its files unless its own update call fails. *)
Theorem applyLibraryScraperResult_isolates_items result w :
  (exists w', applyLibraryScraperResult result w = (Ok tt, w')) /\
  (forall pre item post,
     newAnime result = pre ++ item :: post ->
     exists w1 w2,
       for_of pre applyNewAnime w = (Ok tt, w1) /\
       applyNewAnime item w1 = (Ok tt, w2) /\
       applyLibraryScraperResult result w
       = applyLibraryScraperResult
           (mkLibraryScrapeResult post (existingAnime result)) w2 /\
       (fault (AnimeCreate (proposal_data (new_anime item))) (store w1)
        <> None ->
        tables (store w2) = tables (store w1)) /\
       (fault (AnimeCreate (proposal_data (new_anime item))) (store w1)
        = None ->
        exists a,
          anime_data a = proposal_data (new_anime item) /\
          animes (store w2) = animes (store w1) ++ [a] /\
          In a (animes (store (snd (applyLibraryScraperResult result w))))) /\
       (fst (createNewAnime item w1) = Ok tt ->
        exists a,
          anime_data a = proposal_data (new_anime item) /\
          animes (store w2) = animes (store w1) ++ [a] /\
          (forall k, In k (proposal_sites (new_anime item)) ->
             attached (anime_id a) k (siteLinks (store w2))) /\
          libFiles (store w2)
          = map (assign_anime (map file_id (new_files item)) (anime_id a))
              (libFiles (store w1)))) /\
  (forall pre item post,
     existingAnime result = pre ++ item :: post ->
     exists w1 w2,
       applyLibraryScraperResult
         (mkLibraryScrapeResult (newAnime result) pre) w = (Ok tt, w1) /\
       applyExistingAnime item w1 = (Ok tt, w2) /\
       applyLibraryScraperResult result w
       = for_of post applyExistingAnime w2 /\
       store w2
       = match fault (LibFileUpdateMany (map file_id (existing_files item))
                        (anime_id (existing_anime item))) (store w1) with
         | Some _ => store w1
         | None =>
             set_libFiles (store w1)
               (map (assign_anime (map file_id (existing_files item))
                       (anime_id (existing_anime item)))
                  (libFiles (store w1)))
         end).
Proof.
  split; [|split].
  - unfold applyLibraryScraperResult.
    destruct (returns_unit _ (returns_for_of applyNewAnime (newAnime result)
                returns_applyNewAnime) w) as (w1 & E1).
    destruct (returns_unit _ (returns_for_of applyExistingAnime
                (existingAnime result) returns_applyExistingAnime) w1)
      as (w2 & E2).
    rewrite (bind_ok _ _ _ _ _ E1). exists w2. exact E2.
  - intros pre item post Hsplit.
    destruct (for_of_split applyNewAnime pre item post w returns_applyNewAnime)
      as (w1 & w2 & E1 & E2 & E3).
    exists w1, w2. split; [exact E1|]. split; [exact E2|].
    assert (Erest : applyLibraryScraperResult result w
                    = applyLibraryScraperResult
                        (mkLibraryScrapeResult post (existingAnime result)) w2).
    { unfold applyLibraryScraperResult, bind. rewrite Hsplit, E3.
      reflexivity. }
    split; [exact Erest|]. split; [|split].
    + intros Hf. pose proof (applyNewAnime_create_fails item w1 Hf) as Ht.
      rewrite E2 in Ht. exact Ht.
    + intros Hf. destruct (applyNewAnime_creates item w1 Hf) as (a & Hd & Ha).
      rewrite E2 in Ha. simpl in Ha. exists a.
      split; [exact Hd|]. split; [exact Ha|].
      rewrite Erest. apply reconciler_keeps_animes. rewrite Ha.
      apply in_or_app. right. left. reflexivity.
    + intros Hok. destruct (createNewAnime item w1) as [r w2'] eqn:Ec.
      simpl in Hok. subst r.
      pose proof (applyNewAnime_of_ok _ _ _ Ec) as E2'.
      rewrite E2 in E2'. inversion E2'. subst w2'.
      exact (createNewAnime_ok _ _ _ Ec).
  - intros pre item post Hsplit.
    destruct (returns_unit _ (returns_for_of applyNewAnime (newAnime result)
                returns_applyNewAnime) w) as (w0 & E0).
    destruct (for_of_split applyExistingAnime pre item post w0
                returns_applyExistingAnime) as (w1 & w2 & E1 & E2 & E3).
    exists w1, w2. split; [|split; [exact E2|split]].
    + unfold applyLibraryScraperResult. simpl.
      rewrite (bind_ok _ _ _ _ _ E0). exact E1.
    + unfold applyLibraryScraperResult.
      rewrite (bind_ok _ _ _ _ _ E0), Hsplit. exact E3.
    + pose proof (applyExistingAnime_store item w1) as Hs.
      rewrite E2 in Hs. exact Hs.
Qed.

End Managers.

(** ** The scan at concrete stores *)

(** With cutoff 3 the anime of [two_bangumi_store] carries a stale link
    (never refreshed) and a fresh one (refreshed at 5): the first alone is
    dispatched. *)
Lemma fresh_link_never_dispatched_witness :
  dispatch_set 3 two_bangumi_store = [mkSiteLink "100" "Bangumi" None [1]] /\
  ~ In (mkSiteLink "200" "Bangumi" (Some 5) [1])
      (dispatch_set 3 two_bangumi_store).
Proof.
  split; [reflexivity|].
  apply (fresh_link_never_dispatched 3 two_bangumi_store _ 5);
    [reflexivity | lia].
Defined.

(** A scan whose updater stamps the links leaves the anime table as it
    was, while the updater has refreshed both links. *)
Lemma updateAllInfo_only_updaters_write_witness :
  animes (store (snd (updateAllInfo no_fault (stamping_updater 50) show_date
                        10 (world_of two_bangumi_store))))
  = animes two_bangumi_store /\
  map lastUpdate
    (siteLinks (store (snd (updateAllInfo no_fault (stamping_updater 50)
                              show_date 10 (world_of two_bangumi_store)))))
  = [Some 50; Some 50].
Proof.
  split; [|reflexivity].
  apply (updateAllInfo_only_updaters_write no_fault (stamping_updater 50)
           show_date animes).
  intros id w. reflexivity.
Defined.

(** C1 at a concrete store: the first stale link carries the tag
    ["Unknown"], for which [getInfoUpdater] returns nothing.  The scan
    throws a [TypeError] to its caller and the stale Bangumi link after it
    is not refreshed. *)
Theorem updateAllInfo_unknown_provider_throws :
  getInfoUpdater (stamping_updater 50) "Unknown" = None /\
  map siteType (dispatch_set 10 unknown_provider_store)
  = ["Unknown"; "Bangumi"] /\
  fst (updateAllInfo no_fault (stamping_updater 50) show_date 10
         (world_of unknown_provider_store))
  = Throw (TypeError
      "Cannot read properties of undefined (reading 'updateRelationAnimes')") /\
  map lastUpdate
    (siteLinks (store (snd (updateAllInfo no_fault (stamping_updater 50)
                              show_date 10 (world_of unknown_provider_store)))))
  = [Some 5; Some 5].
Proof. repeat split. Qed.

(** C3 as stated fails: the provider is down for site 100, the first of two
    stale links.  The scan ends with the exception of the updater and the
    second link keeps its old [lastUpdate]; with the provider up both links
    are refreshed. *)
Lemma updateAllInfo_refresh_failure_counterexample :
  fst (updateAllInfo no_fault (flaky_updater 50 "100") show_date 10
         (world_of two_bangumi_store))
  = Throw (OtherError "fetch failed") /\
  map lastUpdate
    (siteLinks (store (snd (updateAllInfo no_fault (flaky_updater 50 "100")
                              show_date 10 (world_of two_bangumi_store)))))
  = [None; Some 5] /\
  map lastUpdate
    (siteLinks (store (snd (updateAllInfo no_fault (flaky_updater 50 "none")
                              show_date 10 (world_of two_bangumi_store)))))
  = [Some 50; Some 50].
Proof. repeat split. Qed.

Lemma updateAllInfo_refresh_failure_propagates_witness :
  fst (updateAllInfo no_fault (flaky_updater 50 "200") show_date 10
         (world_of two_bangumi_store))
  = Throw (OtherError "fetch failed") /\
  map lastUpdate
    (siteLinks (store (snd (updateAllInfo no_fault (flaky_updater 50 "200")
                              show_date 10 (world_of two_bangumi_store)))))
  = [Some 50; Some 5].
Proof.
  pose proof
    (updateAllInfo_refresh_failure_propagates no_fault
       (flaky_updater 50 "200") show_date 10 (world_of two_bangumi_store)
       [mkSiteLink "100" "Bangumi" None [1]]
       (mkSiteLink "200" "Bangumi" (Some 5) [1]) []
       (flaky_updater 50 "200") _ (OtherError "fetch failed") _
       eq_refl eq_refl eq_refl eq_refl eq_refl) as E.
  rewrite E. split; reflexivity.
Defined.

(** C5 at a concrete store: the cutoff is one millisecond before the epoch
    and the only link was never refreshed.  The query selects its anime,
    but [null <= before] is [0 <= -1] and the filter drops the link; from
    the epoch on the link is dispatched. *)
Theorem never_updated_link_dropped_before_epoch :
  map lastUpdate (siteLinks never_updated_store) = [None] /\
  map aws_anime (find_stale_animes (-1) never_updated_store)
  = animes never_updated_store /\
  dispatch_set (-1) never_updated_store = [] /\
  dispatch_set 0 never_updated_store = siteLinks never_updated_store.
Proof. repeat split. Qed.

(** ** The reconciler at concrete batches *)

(** C2 as stated fails: attaching the first of two links fails.  The anime
    is created (id 2), but the second link (site 300) is not attached and
    the two files stay without anime; without the failure both links are
    attached and both files associated. *)
Lemma site_link_failure_counterexample :
  fst (applyLibraryScraperResult (reject_site "broken") OneToMany
         (mkLibraryScrapeResult [item_with_links] [])
         (world_of owned_link_store)) = Ok tt /\
  map anime_id
    (animes (store (snd (applyLibraryScraperResult (reject_site "broken")
                           OneToMany
                           (mkLibraryScrapeResult [item_with_links] [])
                           (world_of owned_link_store))))) = [1; 2] /\
  map siteId
    (siteLinks (store (snd (applyLibraryScraperResult (reject_site "broken")
                              OneToMany
                              (mkLibraryScrapeResult [item_with_links] [])
                              (world_of owned_link_store))))) = ["100"] /\
  map file_animeId
    (libFiles (store (snd (applyLibraryScraperResult (reject_site "broken")
                             OneToMany
                             (mkLibraryScrapeResult [item_with_links] [])
                             (world_of owned_link_store))))) = [None; None] /\
  map siteId
    (siteLinks (store (snd (applyLibraryScraperResult no_fault OneToMany
                              (mkLibraryScrapeResult [item_with_links] [])
                              (world_of owned_link_store)))))
  = ["100"; "broken"; "300"] /\
  map file_animeId
    (libFiles (store (snd (applyLibraryScraperResult no_fault OneToMany
                             (mkLibraryScrapeResult [item_with_links] [])
                             (world_of owned_link_store)))))
  = [Some 2; Some 2].
Proof. repeat split. Qed.

Lemma site_link_failure_ends_item_witness :
  fst (applyNewAnime (reject_site "broken") OneToMany item_with_links
         (world_of owned_link_store)) = Ok tt /\
  store (snd (applyNewAnime (reject_site "broken") OneToMany item_with_links
                (world_of owned_link_store)))
  = set_animes owned_link_store
      [mkAnime 1 (plain_data "A"); mkAnime 2 (plain_data "B")] 3.
Proof.
  destruct
    (site_link_failure_ends_item (reject_site "broken") OneToMany
       item_with_links [] (world_of owned_link_store)
       (mkAnime 2 (plain_data "B")) _ []
       (mkSiteLinkInput "broken" "Bangumi") [mkSiteLinkInput "300" "Bangumi"]
       _ (OtherError "connection lost") _
       eq_refl eq_refl eq_refl eq_refl) as [E _].
  rewrite E. split; reflexivity.
Defined.

(** C4 as stated fails: anime 1 owns the link (Bangumi, 100); a new anime
    proposing the same key takes the link over (one-to-many) or is added to
    it (many-to-many).  No second record appears and [lastUpdate] stays. *)
Lemma attach_existing_link_counterexample :
  map link_animes (siteLinks owned_link_store) = [[1]] /\
  map link_animes
    (siteLinks (store (snd (applyLibraryScraperResult no_fault OneToMany
                              (mkLibraryScrapeResult [item_sharing_link] [])
                              (world_of owned_link_store))))) = [[2]] /\
  map link_animes
    (siteLinks (store (snd (applyLibraryScraperResult no_fault ManyToMany
                              (mkLibraryScrapeResult [item_sharing_link] [])
                              (world_of owned_link_store))))) = [[1; 2]] /\
  map lastUpdate
    (siteLinks (store (snd (applyLibraryScraperResult no_fault OneToMany
                              (mkLibraryScrapeResult [item_sharing_link] [])
                              (world_of owned_link_store))))) = [Some 5].
Proof. repeat split. Qed.

(** Animes 1 and 2 attach the key (Bangumi, 100) one after the other: one
    link carries the key, and it is connected to anime 2. *)
Lemma attachSiteLink_upsert_witness :
  count_key (mkSiteLinkInput "100" "Bangumi")
    (siteLinks (store (snd
       (attachSiteLink no_fault OneToMany (mkAnime 2 (plain_data "B")) "B"
          (mkSiteLinkInput "100" "Bangumi")
          (snd (attachSiteLink no_fault OneToMany (mkAnime 1 (plain_data "A"))
                  "A" (mkSiteLinkInput "100" "Bangumi")
                  (world_of two_anime_store)))))))
  = 1%nat /\
  map link_animes
    (siteLinks (store (snd
       (attachSiteLink no_fault OneToMany (mkAnime 2 (plain_data "B")) "B"
          (mkSiteLinkInput "100" "Bangumi")
          (snd (attachSiteLink no_fault OneToMany (mkAnime 1 (plain_data "A"))
                  "A" (mkSiteLinkInput "100" "Bangumi")
                  (world_of two_anime_store)))))))
  = [[2]].
Proof.
  destruct
    (attachSiteLink_upsert no_fault OneToMany (mkAnime 1 (plain_data "A"))
       (mkAnime 2 (plain_data "B")) "A" "B" (mkSiteLinkInput "100" "Bangumi")
       (world_of two_anime_store) _ _
       (le_S 0 0 (le_n 0)) eq_refl eq_refl) as (_ & E & _).
  split; [exact E | reflexivity].
Defined.

(** A batch of ten items under a unique constraint on the name: the fifth
    item proposes the name of the first again and its creation is
    rejected, using up the id 5.  The call returns normally, the other
    nine animes are created, the link and the file of the rejected item
    are left out, and the items after it (the sixth with its link and its
    file, and the existing anime with its file) are applied. *)
Lemma applyLibraryScraperResult_isolates_items_witness :
  fst (applyLibraryScraperResult unique_name OneToMany
         (mkLibraryScrapeResult ten_items [existing_item])
         (world_of two_file_store)) = Ok tt /\
  map (fun a => (anime_id a, name (anime_data a)))
    (animes (store (snd (applyLibraryScraperResult unique_name OneToMany
                           (mkLibraryScrapeResult ten_items [existing_item])
                           (world_of two_file_store)))))
  = [(1, "A"); (2, "B"); (3, "C"); (4, "D"); (6, "F"); (7, "G"); (8, "H");
     (9, "I"); (10, "J")] /\
  map (fun l => (siteId l, link_animes l))
    (siteLinks (store (snd (applyLibraryScraperResult unique_name OneToMany
                              (mkLibraryScrapeResult ten_items [existing_item])
                              (world_of two_file_store)))))
  = [("600", [6])] /\
  map file_animeId
    (libFiles (store (snd (applyLibraryScraperResult unique_name OneToMany
                             (mkLibraryScrapeResult ten_items [existing_item])
                             (world_of two_file_store)))))
  = [Some 1; Some 6] /\
  exists a,
    anime_data a = plain_data "F" /\
    In a
      (animes (store (snd (applyLibraryScraperResult unique_name OneToMany
                             (mkLibraryScrapeResult ten_items [existing_item])
                             (world_of two_file_store))))).
Proof.
  split; [reflexivity|]. split; [reflexivity|]. split; [reflexivity|].
  split; [reflexivity|].
  destruct (proj1 (proj2 (applyLibraryScraperResult_isolates_items unique_name
                            OneToMany
                            (mkLibraryScrapeResult ten_items [existing_item])
                            (world_of two_file_store)))
              (map plain_item ["A"; "B"; "C"; "D"] ++ [file_item "A" "500" 10])
              (file_item "F" "600" 11)
              (map plain_item ["G"; "H"; "I"; "J"]) eq_refl)
    as (w1 & w2 & E1 & _ & _ & _ & Hcreate & _).
  vm_compute in E1. inversion E1 as [Hw1]. rewrite <- Hw1 in Hcreate.
  destruct (Hcreate eq_refl) as (a & Hd & _ & Hin).
  exists a. split; [exact Hd | exact Hin].
Defined.

(** ** changePassword and the reader at concrete stores *)

(** The store is unreachable: the caller of [changePassword] sees a normal
    return and the stored password is the old one. *)
Lemma changePassword_swallows_store_errors_witness :
  fst (changePassword (reject_user_update (OtherError "connection lost"))
         sample_isSecurePassword sample_saltOf sample_stringify
         1 "new-password" (world_of one_user_store)) = Ok tt /\
  users (store (snd
    (changePassword (reject_user_update (OtherError "connection lost"))
       sample_isSecurePassword sample_saltOf sample_stringify
       1 "new-password" (world_of one_user_store))))
  = users one_user_store.
Proof.
  rewrite (proj2 (changePassword_swallows_store_errors
                    (reject_user_update (OtherError "connection lost"))
                    sample_isSecurePassword sample_saltOf sample_stringify
                    1 "new-password" (world_of one_user_store)
                    (OtherError "connection lost") _ eq_refl eq_refl)).
  - split; reflexivity.
  - discriminate.
Defined.

(** Library 1 holds a live file, a removed file and a file in a
    sub-directory; library 2 holds a file with the same path. *)
Lemma reader_returns_live_files_of_own_library_witness :
  fst (getAllSubFiles no_fault join_id reader_one "/anime"
         (world_of reader_store))
  = Ok [mkLibFile 1 1 "/anime" "a.mkv" false None;
        mkLibFile 4 1 "/anime/sub" "c.mkv" false (Some 9)] /\
  fst (getFile no_fault parse_in_anime reader_one "/anime/b.mkv"
         (world_of reader_store)) = Ok None /\
  (file_removed (mkLibFile 4 1 "/anime/sub" "c.mkv" false (Some 9)) = false /\
   file_libraryId (mkLibFile 4 1 "/anime/sub" "c.mkv" false (Some 9))
   = reader_libraryId reader_one /\
   In (mkLibFile 4 1 "/anime/sub" "c.mkv" false (Some 9))
     (libFiles (store (world_of reader_store)))).
Proof.
  split; [reflexivity|]. split; [reflexivity|].
  apply (reader_returns_live_files_of_own_library no_fault parse_in_anime
           join_id reader_one "/anime" (world_of reader_store)).
  right. eexists. eexists. split.
  2:{ right. right. reflexivity. }
  right. left. reflexivity.
Defined.

(** ** Further examples: the scan *)

Lemma dispatch_set_from_epoch_witness :
  In (mkSiteLink "100" "Bangumi" None [1]) (dispatch_set 3 two_bangumi_store).
Proof.
  apply (dispatch_set_from_epoch 3 two_bangumi_store); [lia|].
  split; [left; reflexivity|]. split; [|reflexivity].
  exists (mkAnime 1 (plain_data "A")). split; left; reflexivity.
Defined.

Lemma updateAllInfo_completes_witness :
  fst (updateAllInfo no_fault (stamping_updater 50) show_date 10
         (world_of two_bangumi_store)) = Ok tt.
Proof.
  destruct (updateAllInfo_completes no_fault (stamping_updater 50) show_date 10
              (world_of two_bangumi_store)) as (w' & older & E & _).
  - reflexivity.
  - intros site Hin. vm_compute in Hin.
    destruct Hin as [<- | [<- | []]]; reflexivity.
  - intros id w. eexists. eexists. reflexivity.
  - rewrite E. reflexivity.
Defined.

Lemma updateAllInfo_unregistered_tag_throws_witness :
  fst (updateAllInfo no_fault (stamping_updater 50) show_date 10
         (world_of unknown_provider_store))
  = Throw (TypeError
      "Cannot read properties of undefined (reading 'updateRelationAnimes')").
Proof.
  rewrite (updateAllInfo_unregistered_tag_throws no_fault (stamping_updater 50)
             show_date 10 (world_of unknown_provider_store) []
             (mkSiteLink "7" "Unknown" (Some 5) [1])
             [mkSiteLink "200" "Bangumi" (Some 5) [1]]
             (world_of unknown_provider_store) eq_refl eq_refl eq_refl).
  - reflexivity.
  - discriminate.
Defined.

(** ** Further examples: the reconciler *)

Lemma reconciler_keeps_link_keys_unique_witness :
  link_keys_unique
    (store (snd (applyLibraryScraperResult no_fault OneToMany
                   (mkLibraryScrapeResult [item_sharing_link; item_with_links]
                      [])
                   (world_of owned_link_store)))).
Proof.
  apply reconciler_keeps_link_keys_unique.
  unfold link_keys_unique. simpl. repeat constructor. intros [].
Defined.

Lemma applyNewAnime_without_failure_witness :
  fst (applyNewAnime no_fault OneToMany item_with_links
         (world_of owned_link_store)) = Ok tt /\
  map file_animeId
    (libFiles (store (snd (applyNewAnime no_fault OneToMany item_with_links
                             (world_of owned_link_store)))))
  = [Some 2; Some 2].
Proof.
  destruct (applyNewAnime_without_failure no_fault OneToMany item_with_links
              (world_of owned_link_store)) as (w' & E & _ & _ & F).
  - intros c s. reflexivity.
  - rewrite E. simpl. rewrite F. split; reflexivity.
Defined.


(** ** Further examples: changePassword *)

Lemma changePassword_updates_password_witness :
  fst (changePassword no_fault sample_isSecurePassword sample_saltOf
         sample_stringify 1 "new-password" (world_of one_user_store)) = Ok tt /\
  map user_password
    (users (store (snd (changePassword no_fault sample_isSecurePassword
                          sample_saltOf sample_stringify 1 "new-password"
                          (world_of one_user_store)))))
  = ["salt$new-password"].
Proof.
  destruct (changePassword_updates_password no_fault sample_isSecurePassword
              sample_saltOf sample_stringify 1 "new-password"
              (world_of one_user_store)) as (w' & E & _).
  - reflexivity.
  - reflexivity.
  - eexists. split; [left; reflexivity | reflexivity].
  - split; [rewrite E; reflexivity | reflexivity].
Defined.

Lemma changePassword_missing_user_witness :
  fst (changePassword no_fault sample_isSecurePassword sample_saltOf
         sample_stringify 7 "new-password" (world_of one_user_store))
  = Throw (UserNotFoundError "找不到用户") /\
  store (snd (changePassword no_fault sample_isSecurePassword sample_saltOf
                sample_stringify 7 "new-password" (world_of one_user_store)))
  = one_user_store.
Proof.
  apply (changePassword_missing_user no_fault sample_isSecurePassword
           sample_saltOf sample_stringify 7 "new-password"
           (world_of one_user_store)).
  - reflexivity.
  - reflexivity.
  - intros u [<- | []]. discriminate.
Defined.

(** ** Further examples: the reader *)

Lemma getFirstSubFiles_spec_witness :
  fst (getFirstSubFiles no_fault join_id reader_one "/anime"
         (world_of reader_store))
  = Ok [mkLibFile 1 1 "/anime" "a.mkv" false None] /\
  In (mkLibFile 1 1 "/anime" "a.mkv" false None)
    [mkLibFile 1 1 "/anime" "a.mkv" false None].
Proof.
  split; [reflexivity|].
  apply (proj2 (getFirstSubFiles_spec no_fault join_id reader_one "/anime"
                  (world_of reader_store) _ _ eq_refl)).
  split; [left; reflexivity|]. repeat split.
Defined.

(** The direct sub-files of ["/anime"] are among all its sub-files; for
    the directory whose name has a backslash they are not. *)
Lemma reader_listings_nest_witness :
  fst (getAllSubFiles no_fault join_id reader_one "/anime"
         (world_of reader_store))
  = Ok [mkLibFile 1 1 "/anime" "a.mkv" false None;
        mkLibFile 4 1 "/anime/sub" "c.mkv" false (Some 9)] /\
  incl [mkLibFile 1 1 "/anime" "a.mkv" false None]
    [mkLibFile 1 1 "/anime" "a.mkv" false None;
     mkLibFile 4 1 "/anime/sub" "c.mkv" false (Some 9)] /\
  fst (getFirstSubFiles no_fault join_id reader_one "/a\b"
         (world_of wildcard_store))
  = Ok [mkLibFile 3 1 "/a\b" "c.mkv" false None] /\
  fst (getAllSubFiles no_fault join_id reader_one "/a\b"
         (world_of wildcard_store)) = Ok [].
Proof.
  split; [reflexivity|]. split; [|split; reflexivity].
  apply (proj1 (proj2 (reader_listings_nest no_fault join_id reader_one
                         "/anime" (world_of reader_store) _ _ _ _ _ _
                         eq_refl eq_refl eq_refl)) eq_refl).
Defined.

(** Listing ["/anime"] returns the file of ["/anime2"], and listing
    ["/a_b"] returns the file of ["/axb"]. *)
Lemma getAllSubFiles_matches_like_witness :
  fst (getAllSubFiles no_fault join_id reader_one "/anime"
         (world_of sibling_store))
  = Ok [mkLibFile 1 1 "/anime" "a.mkv" false None;
        mkLibFile 2 1 "/anime2" "b.mkv" false None] /\
  In (mkLibFile 2 1 "/anime2" "b.mkv" false None)
    [mkLibFile 1 1 "/anime" "a.mkv" false None;
     mkLibFile 2 1 "/anime2" "b.mkv" false None] /\
  fst (getAllSubFiles no_fault join_id reader_one "/a_b"
         (world_of wildcard_store))
  = Ok [mkLibFile 1 1 "/a_b" "a.mkv" false None;
        mkLibFile 2 1 "/axb" "b.mkv" false None;
        mkLibFile 3 1 "/a\b" "c.mkv" false None] /\
  In (mkLibFile 2 1 "/axb" "b.mkv" false None)
    [mkLibFile 1 1 "/a_b" "a.mkv" false None;
     mkLibFile 2 1 "/axb" "b.mkv" false None;
     mkLibFile 3 1 "/a\b" "c.mkv" false None].
Proof.
  split; [reflexivity|]. split; [|split; [reflexivity|]].
  - apply (proj1 (getAllSubFiles_matches_like no_fault join_id reader_one
                    "/anime" (world_of sibling_store) _ _ eq_refl) eq_refl).
    split; [right; left; reflexivity|]. repeat split.
  - apply (proj2 (getAllSubFiles_matches_like no_fault join_id reader_one
                    "/a_b" (world_of wildcard_store) _ _ eq_refl)
             _ "/axb" "").
    + right. left. reflexivity.
    + reflexivity.
    + reflexivity.
    + reflexivity.
    + reflexivity.
Defined.

(** The file b.mkv of library 1 is soft-deleted: [getFile] reports it as
    absent. *)
Lemma getFile_spec_witness :
  fst (getFile no_fault parse_in_anime reader_one "/anime/b.mkv"
         (world_of reader_store)) = Ok None /\
  file_removed (mkLibFile 2 1 "/anime" "b.mkv" true None) = true.
Proof.
  split; [reflexivity|].
  apply (proj1 (proj2 (getFile_spec no_fault parse_in_anime reader_one
                         "/anime/b.mkv" (world_of reader_store) None _
                         eq_refl)) eq_refl).
  - right. left. reflexivity.
  - reflexivity.
  - reflexivity.
  - reflexivity.
Defined.

(** ** register and login *)

(** X18: when one of the four checks of [register] fails, the call ends
    with the error of the first failing check, in the order email, name,
    password, invite code; the world is as before (no salt is drawn) and
    [user.create] is not reached: the outcome is the same for every
    behaviour of that call. *)
Theorem register_rejects_before_store
  isSecurePassword saltOf stringify isEmail isVaildName create1 create2
  email name password inviteCode w :
  isEmail email && isVaildName name && isSecurePassword password
    && negb (String.eqb inviteCode "") = false ->
  register isSecurePassword saltOf stringify isEmail isVaildName create1
    email name password inviteCode w
  = register isSecurePassword saltOf stringify isEmail isVaildName create2
      email name password inviteCode w /\
  register isSecurePassword saltOf stringify isEmail isVaildName create1
    email name password inviteCode w
  = (Account.Throw
       (if negb (isEmail email)
        then Account.UserEmailBadError "邮箱不合法"
        else if negb (isVaildName name)
        then Account.UserNameBadError "用户名不能为空或过长"
        else if negb (isSecurePassword password)
        then Account.UserPasswordBadError "密码至少包含字母, 且长度为 7-64"
        else Account.InviteCodeNotFoundError "邀请码不存在"), w).
Proof.
  intros H. unfold register.
  destruct (isEmail email); simpl in *; [|split; reflexivity].
  destruct (isVaildName name); simpl in *; [|split; reflexivity].
  destruct (isSecurePassword password); simpl in *; [|split; reflexivity].
  destruct (String.eqb inviteCode ""); simpl in *; [split; reflexivity|].
  discriminate.
Qed.

(** A name that the validator rejects, with a valid email. *)
Lemma register_rejects_before_store_witness :
  register sample_isSecurePassword sample_saltOf sample_stringify
    sample_isEmail sample_isVaildName
    (failing_user_create (Account.OtherError "unreachable"))
    "a@example.org" "" "new-password" "INVITE" (world_of empty_store)
  = (Account.Throw (Account.UserNameBadError "用户名不能为空或过长"),
     world_of empty_store).
Proof.
  apply (register_rejects_before_store sample_isSecurePassword sample_saltOf
           sample_stringify sample_isEmail sample_isVaildName
           (failing_user_create (Account.OtherError "unreachable"))
           (failing_user_create (Account.OtherError "unreachable"))
           "a@example.org" "" "new-password" "INVITE" (world_of empty_store)).
  reflexivity.
Defined.

(** An invite code that the store does not accept. *)
Lemma register_surfaces_store_errors_witness :
  fst (register sample_isSecurePassword sample_saltOf sample_stringify
         sample_isEmail sample_isVaildName
         (failing_user_create
            (Account.PrismaClientKnownRequestError "P2025" None))
         "a@example.org" "a" "new-password" "INVITE" (world_of empty_store))
  = Account.Throw (Account.InviteCodeNotFoundError "邀请码无效").
Proof.
  destruct (register_surfaces_store_errors sample_isSecurePassword
              sample_saltOf sample_stringify sample_isEmail sample_isVaildName
              (failing_user_create
                 (Account.PrismaClientKnownRequestError "P2025" None))
              "a@example.org" "a" "new-password" "INVITE"
              (world_of empty_store)
              (Account.PrismaClientKnownRequestError "P2025" None)
              (mkWorld empty_store [] 1)
              eq_refl eq_refl eq_refl) as (e' & E & _ & _ & H25 & _).
  - discriminate.
  - reflexivity.
  - rewrite E, (H25 None eq_refl). reflexivity.
Defined.

Lemma login_success_is_verified_witness :
  fst (login sample_testPassword sample_sign no_account_fault (pick_at 0)
         "a@example.org" "first" (world_of shared_account_store))
  = Account.Ok
      (mkLoginSuccessResult "token-1"
         (mkUser 1 "a@example.org" "b@example.org" "Sha256" "salt$first")) /\
  token (mkLoginSuccessResult "token-1"
           (mkUser 1 "a@example.org" "b@example.org" "Sha256" "salt$first"))
  = sample_sign 1.
Proof.
  split; [reflexivity|].
  apply (login_success_is_verified sample_testPassword sample_sign
           no_account_fault (pick_at 0) "a@example.org" "first"
           (world_of shared_account_store)
           (mkLoginSuccessResult "token-1"
              (mkUser 1 "a@example.org" "b@example.org" "Sha256" "salt$first"))
           (world_of shared_account_store) eq_refl).
Defined.

(** The account is the name of user 1 and the email of user 2, and the
    password is the one of user 2: the login succeeds when the store
    returns user 2 and fails when it returns user 1. *)
Lemma login_decides_on_a_match_witness :
  fst (login sample_testPassword sample_sign no_account_fault (pick_at 1)
         "b@example.org" "second" (world_of shared_account_store))
  = Account.Ok
      (mkLoginSuccessResult "token-2"
         (mkUser 2 "b@example.org" "b" "Sha256" "salt$second")) /\
  fst (login sample_testPassword sample_sign no_account_fault (pick_at 0)
         "b@example.org" "second" (world_of shared_account_store))
  = Account.Throw (Account.UserPasswordError "密码错误") /\
  exists u,
    In u (users shared_account_store) /\
    account_matches "b@example.org" u = true.
Proof.
  split; [reflexivity|]. split; [reflexivity|].
  destruct (login_decides_on_a_match sample_testPassword sample_sign
              no_account_fault (pick_at 1) "b@example.org" "second"
              (world_of shared_account_store)
              (mkUser 2 "b@example.org" "b" "Sha256" "salt$second")
              eq_refl (or_intror (or_introl eq_refl)) eq_refl)
    as (u & Hin & Hm & _).
  exists u. split; [exact Hin | exact Hm].
Defined.

Lemma login_unknown_account_witness :
  login sample_testPassword sample_sign no_account_fault (pick_at 0)
    "nobody" "first" (world_of shared_account_store)
  = (Account.Throw (Account.UserNotFoundError "无法找到此用户"),
     world_of shared_account_store).
Proof.
  apply (login_unknown_account sample_testPassword sample_sign
           no_account_fault (pick_at 0) "nobody" "first"
           (world_of shared_account_store)).
  - reflexivity.
  - intros x [<- | [<- | []]]; reflexivity.
Defined.
